(** * Interactive-element detection (buildDOMTree.js, [window.domTreeResult])

    A shallow embedding of the page-side analysis pass: the geometry/style
    cache, the visibility and interactivity classifiers, the priority score,
    the duplicate resolver with its processed-area ledger, the traversal of
    the main document, iframes and shadow roots, and the scrollbar detector.

    The live DOM is read through an immutable node view: every property the
    script reads from an element (attributes, IDL properties, computed style,
    bounding box, scroll metrics, parent chain, shadow root) is a field of
    [Element].  Numbers that the script divides or compares against
    fractional thresholds are rationals ([Q]); integer DOM metrics are [Z].

    Conventions.  The script computes in binary floating point; here sums,
    products and quotients are exact.  Strings are sequences of 8-bit
    characters, with the ASCII notions of whitespace and letter case.  The
    queries on the tree do not throw, with two exceptions that the script
    itself provides for: reaching the document of a frame, and asking the
    DevTools registry for event listeners; the other [try]/[catch] blocks of
    the script are therefore not entered.  The drawing of highlight overlays
    is kept as the list of indices drawn; its return values are discarded at
    every call site. *)

From Stdlib Require Import ZArith QArith Qround Qminmax Qabs String Ascii List Bool Lia Lqa.
From stdpp Require Import base gmap.
Import ListNotations.

Local Open Scope string_scope.
Local Open Scope Z_scope.

(* ------------------------------------------------------------------ *)
(** ** Strings, as the script uses them *)

Module Str.

Definition isWhitespace (c : ascii) : bool :=
  let n := nat_of_ascii c in
  (Nat.eqb n 32 || Nat.eqb n 9 || Nat.eqb n 10 || Nat.eqb n 11
   || Nat.eqb n 12 || Nat.eqb n 13)%bool.

Fixpoint trimStart (s : string) : string :=
  match s with
  | String c s' => if isWhitespace c then trimStart s' else s
  | EmptyString => EmptyString
  end.

Fixpoint trimEnd (s : string) : string :=
  match s with
  | String c s' =>
      match trimEnd s' with
      | EmptyString => if isWhitespace c then EmptyString else String c EmptyString
      | t => String c t
      end
  | EmptyString => EmptyString
  end.

(** [String.prototype.trim] *)
Definition trim (s : string) : string := trimEnd (trimStart s).

Definition lowerChar (c : ascii) : ascii :=
  let n := nat_of_ascii c in
  if (Nat.leb 65 n && Nat.leb n 90)%bool then ascii_of_nat (n + 32) else c.

(** [String.prototype.toLowerCase] on the ASCII range *)
Fixpoint toLowerCase (s : string) : string :=
  match s with
  | String c s' => String (lowerChar c) (toLowerCase s')
  | EmptyString => EmptyString
  end.

(** [hay.includes(needle)] *)
Fixpoint includes (hay needle : string) : bool :=
  (String.prefix needle hay
   || match hay with
      | String _ hay' => includes hay' needle
      | EmptyString => false
      end)%bool.

(** [s.startsWith(p)] *)
Definition startsWith (s p : string) : bool := String.prefix p s.

(** A string is truthy when it is not empty. *)
Definition nonEmpty (s : string) : bool := negb (String.eqb s "").

(** Whitespace-separated tokens, as [classList] derives them from the
    [class] attribute. *)
Fixpoint tokensAux (cur : string) (s : string) : list string :=
  match s with
  | String c s' =>
      if isWhitespace c
      then (if nonEmpty cur then [cur] else []) ++ tokensAux "" s'
      else tokensAux (cur ++ String c "") s'
  | EmptyString => if nonEmpty cur then [cur] else []
  end.

Definition tokens (s : string) : list string := tokensAux "" s.

Definition digitValue (c : ascii) : option Z :=
  let n := nat_of_ascii c in
  if (Nat.leb 48 n && Nat.leb n 57)%bool then Some (Z.of_nat (n - 48)) else None.

Fixpoint digitsAux (acc : option Z) (s : string) : option Z :=
  match s with
  | String c s' =>
      match digitValue c with
      | Some d => digitsAux (Some (match acc with Some a => 10 * a + d | None => d end)) s'
      | None => acc
      end
  | EmptyString => acc
  end.

(** [parseInt(s)] in base 10: leading whitespace, an optional sign, then the
    longest run of digits; [None] stands for [NaN]. *)
Definition parseInt (s : string) : option Z :=
  match trimStart s with
  | String "-" s' => option_map Z.opp (digitsAux None s')
  | String "+" s' => digitsAux None s'
  | t => digitsAux None t
  end.

End Str.

(* ------------------------------------------------------------------ *)
(** ** Rationals: boolean comparisons and [Math.round] *)

Definition Qltb (x y : Q) : bool := negb (Qle_bool y x).
Definition Qleb (x y : Q) : bool := Qle_bool x y.
Definition Qgtb (x y : Q) : bool := Qltb y x.
Definition Qgeb (x y : Q) : bool := Qleb y x.

(** [Math.round]: the nearest integer, halves towards plus infinity. *)
Definition mathRound (x : Q) : Z := Qfloor (x + (1 # 2))%Q.

Definition Zq (z : Z) : Q := inject_Z z.

(* ------------------------------------------------------------------ *)
(** ** The node view *)

(** [DOMRect]; [right] and [bottom] are derived as the DOM derives them for a
    box of non-negative size. *)
Record DOMRect := mkRect {
  rect_left : Q;
  rect_top : Q;
  rect_width : Q;
  rect_height : Q
}.

Definition rect_right (r : DOMRect) : Q := (rect_left r + rect_width r)%Q.
Definition rect_bottom (r : DOMRect) : Q := (rect_top r + rect_height r)%Q.

(** The properties of [CSSStyleDeclaration] that the script reads. *)
Record CSSStyle := mkStyle {
  cursor : string;
  visibility : string;
  display : string;
  opacity : string;
  border : string;
  backgroundColor : string;
  zIndex : string;
  position : string;
  overflow : string;
  overflowX : string;
  overflowY : string
}.

(** What [window.getEventListeners?.(el)] answers: the DevTools registry is
    absent ([undefined], so the script continues with [{}]), or it throws, or
    it returns the number of listeners per event type. *)
Record ListenerCounts := mkListeners {
  l_click : nat; l_mousedown : nat; l_mouseup : nat;
  l_touchstart : nat; l_touchend : nat
}.

Inductive ListenerQuery :=
| ListenersUnavailable
| ListenersThrow
| ListenersOk (c : ListenerCounts).

(** [getBoundingClientRect()] and [window.getComputedStyle(el)] always answer
    with an object, as the DOM specifies; the guards [if (!rect)] and
    [if (style)] of the script are therefore always passed and are not
    repeated below.  Values of this type are element nodes, so the test
    [nodeType !== Node.ELEMENT_NODE] is always false. *)
#[local] Unset Elimination Schemes.
Inductive Element := mkElement {
  nodeId : nat;                       (* identity of the node ([===]) *)
  tagName : string;                   (* [tagName.toLowerCase()] *)
  attrs : list (string * string);     (* content attributes *)
  textContent : string;
  childrenLength : nat;               (* [children.length] *)
  parentElement : option Element;
  onclick : bool;                     (* handler properties: non-null *)
  onmousedown : bool;
  onmouseup : bool;
  ontouchstart : bool;
  ontouchend : bool;
  draggable : bool;
  isContentEditable : bool;
  inlineDisplay : string;             (* [element.style.display] *)
  offsetWidth : Z;
  offsetHeight : Z;
  clientWidth : Z;
  clientHeight : Z;
  scrollWidth : Z;
  scrollHeight : Z;
  scrollTop : Q;
  scrollLeft : Q;
  getBoundingClientRect : DOMRect;
  getComputedStyle : CSSStyle;
  getEventListeners : ListenerQuery;
  shadowRoot : option (list Element)  (* [shadowRoot.querySelectorAll('*')] *)
}.

#[local] Set Elimination Schemes.

Definition sameNode (a b : Element) : bool := Nat.eqb (nodeId a) (nodeId b).

Fixpoint assoc (k : string) (l : list (string * string)) : option string :=
  match l with
  | (k', v) :: l' => if String.eqb k k' then Some v else assoc k l'
  | [] => None
  end.

Definition getAttribute (e : Element) (name : string) : option string :=
  assoc name (attrs e).

Definition hasAttribute (e : Element) (name : string) : bool :=
  match getAttribute e name with Some _ => true | None => false end.

(** [getAttribute(name) === v] *)
Definition attrIs (e : Element) (name v : string) : bool :=
  match getAttribute e name with Some s => String.eqb s v | None => false end.

(** [getAttribute(name)] used as a condition: present and not empty. *)
Definition attrTruthy (e : Element) (name : string) : bool :=
  match getAttribute e name with Some s => Str.nonEmpty s | None => false end.

(** [getAttribute(name)?.toLowerCase().includes(w)] *)
Definition attrLowerIncludes (e : Element) (name w : string) : bool :=
  match getAttribute e name with
  | Some s => Str.includes (Str.toLowerCase s) w
  | None => false
  end.

(** [element.id] and [element.className] reflect the content attributes. *)
Definition elementId (e : Element) : string :=
  match getAttribute e "id" with Some s => s | None => "" end.

Definition className (e : Element) : string :=
  match getAttribute e "class" with Some s => s | None => "" end.

Definition classListContains (e : Element) (c : string) : bool :=
  existsb (String.eqb c) (Str.tokens (className e)).

Definition inList (s : string) (l : list string) : bool := existsb (String.eqb s) l.

(** The chain [e, e.parentElement, ...] that [closest] and the ancestor walks
    follow. *)
Fixpoint selfAndAncestors (e : Element) : list Element :=
  e :: match parentElement e with
       | Some p => selfAndAncestors p
       | None => []
       end.

Definition ancestors (e : Element) : list Element :=
  match parentElement e with
  | Some p => selfAndAncestors p
  | None => []
  end.

(** [element.closest(sel)] for a selector given as a test on one node. *)
Definition closest (sel : Element -> bool) (e : Element) : option Element :=
  List.find sel (selfAndAncestors e).

(* ------------------------------------------------------------------ *)
(** ** DOM_CACHE *)

Record WindowSize := mkWindowSize { ws_width : Z; ws_height : Z }.

(** The two [WeakMap]s are keyed by node identity. *)
Record DomCache := mkDomCache {
  boundingRects : gmap nat DOMRect;
  computedStyles : gmap nat CSSStyle;
  previousWindowSize : WindowSize;
  lastRunTimestamp : Z
}.

(** [DOM_CACHE.clearCache(force)], reading [window.innerWidth/innerHeight]
    as [currentWindowSize] and [Date.now()] as [currentTime]; the result is
    the returned flag and the cache object after the call. *)
Definition clearCache (force : bool) (currentWindowSize : WindowSize)
  (currentTime : Z) (c : DomCache) : bool * DomCache :=
  if (force
      || negb (ws_width currentWindowSize =? ws_width (previousWindowSize c))
      || negb (ws_height currentWindowSize =? ws_height (previousWindowSize c))
      || (currentTime - lastRunTimestamp c >? 30000))%bool
  then (true,
        {| boundingRects := ∅;
           computedStyles := ∅;
           previousWindowSize := currentWindowSize;
           lastRunTimestamp := currentTime |})
  else (false,
        {| boundingRects := boundingRects c;
           computedStyles := computedStyles c;
           previousWindowSize := previousWindowSize c;
           lastRunTimestamp := currentTime |}).

(** The object literal that [domTreeResult] builds on entry. *)
Definition newDomCache (win : WindowSize) (now : Z) : DomCache :=
  {| boundingRects := ∅;
     computedStyles := ∅;
     previousWindowSize := win;
     lastRunTimestamp := now |}.

(** [getCachedBoundingRect] and [getCachedComputedStyle] with the cache
    threaded through: the answer and the cache after the call.  (No call
    site passes a null element.) *)
Definition getCachedBoundingRect (c : DomCache) (e : Element) : DOMRect * DomCache :=
  match boundingRects c !! nodeId e with
  | Some r => (r, c)
  | None =>
      (getBoundingClientRect e,
       {| boundingRects := <[nodeId e := getBoundingClientRect e]> (boundingRects c);
          computedStyles := computedStyles c;
          previousWindowSize := previousWindowSize c;
          lastRunTimestamp := lastRunTimestamp c |})
  end.

Definition getCachedComputedStyle (c : DomCache) (e : Element) : CSSStyle * DomCache :=
  match computedStyles c !! nodeId e with
  | Some s => (s, c)
  | None =>
      (getComputedStyle e,
       {| boundingRects := boundingRects c;
          computedStyles := <[nodeId e := getComputedStyle e]> (computedStyles c);
          previousWindowSize := previousWindowSize c;
          lastRunTimestamp := lastRunTimestamp c |})
  end.

(** What a cached getter answers for a node, given the map it consults.  The
    tree does not change during a pass, so storing an answer never changes a
    later one ([cachedRect_stable], [cachedStyle_stable] below); the
    classifiers therefore read the two maps through these functions. *)
Definition cachedRect (rects : gmap nat DOMRect) (e : Element) : DOMRect :=
  match rects !! nodeId e with
  | Some r => r
  | None => getBoundingClientRect e
  end.

Definition cachedStyle (styles : gmap nat CSSStyle) (e : Element) : CSSStyle :=
  match styles !! nodeId e with
  | Some s => s
  | None => getComputedStyle e
  end.

(* ------------------------------------------------------------------ *)
(** ** Documents, frames and the arguments of a pass *)

Record Document := mkDocument {
  allElements : list Element;         (* [querySelectorAll('*')], document order *)
  documentElement : Element;
  body : Element;
  elementFromPoint : Q -> Q -> option Element
}.

(** [iframe.contentDocument || iframe.contentWindow?.document]: a document,
    nothing, or a [SecurityError] for a cross-origin frame. *)
Inductive FrameAccess :=
| FrameDocument (d : Document)
| FrameNoDocument
| FrameSecurityError.

Record World := mkWorld {
  innerWidth : Z;
  innerHeight : Z;
  document : Document;
  contentDocument : Element -> FrameAccess
}.

Record Args := mkArgs {
  doHighlightElements : bool;
  focusHighlightIndex : Z;
  viewportExpansion : Z;
  debugMode : bool
}.

Definition defaultArgs : Args :=
  {| doHighlightElements := false;
     focusHighlightIndex := -1;
     viewportExpansion := 0;
     debugMode := false |}.

Definition querySelectorAll (sel : Element -> bool) (d : Document) : list Element :=
  List.filter sel (allElements d).

Section Pass.

Variable args : Args.
Variable world : World.
(** The two maps of [DOM_CACHE] as the pass finds them; the pass reads
    nothing else of the cache. *)
Variable rects : gmap nat DOMRect.
Variable styles : gmap nat CSSStyle.

(* ------------------------------------------------------------------ *)
(** ** Visibility *)

(** [window.innerWidth || document.documentElement.clientWidth] *)
Definition viewportWidth : Z :=
  if innerWidth world =? 0 then clientWidth (documentElement (document world))
  else innerWidth world.

Definition viewportHeight : Z :=
  if innerHeight world =? 0 then clientHeight (documentElement (document world))
  else innerHeight world.

Definition outsideExpandedViewport (bottom top right left : Q) : bool :=
  (Qltb bottom (Zq (- viewportExpansion args))
   || Qgtb top (Zq (viewportHeight + viewportExpansion args))
   || Qltb right (Zq (- viewportExpansion args))
   || Qgtb left (Zq (viewportWidth + viewportExpansion args)))%bool.

Definition isInViewport (element : Element) : bool :=
  if viewportExpansion args =? -1 then true
  else
    let rect := cachedRect rects element in
    negb (outsideExpandedViewport (rect_bottom rect) (rect_top rect)
            (rect_right rect) (rect_left rect)).

Definition isElementVisible (element : Element) : bool :=
  if ((offsetWidth element =? 0) && (offsetHeight element =? 0))%bool
  then
    (String.eqb (tagName element) "input"
     && attrIs element "type" "file"
     && (classListContains element "hidden"
         || String.eqb (inlineDisplay element) "none"))%bool
  else
    let style := cachedStyle styles element in
    (negb (String.eqb (visibility style) "hidden")
     && negb (String.eqb (display style) "none")
     && negb (String.eqb (opacity style) "0"))%bool.

(** The loop [while (current && current !== root) { if (current === element)
    return true; current = current.parentElement; } return false]. *)
Fixpoint inAncestorChain (root element : Element) (current : Element) : bool :=
  if sameNode current root then false
  else if sameNode current element then true
  else
    match parentElement current with
    | Some p => inAncestorChain root element p
    | None => false
    end.

Definition isTopElement (element : Element) : bool :=
  let rect := cachedRect rects element in
  let isInViewportArea :=
    (Qltb (rect_left rect) (Zq (innerWidth world))
     && Qgtb (rect_right rect) 0
     && Qltb (rect_top rect) (Zq (innerHeight world))
     && Qgtb (rect_bottom rect) 0)%bool in
  if negb isInViewportArea then false
  else
    let centerX := (rect_left rect + rect_width rect / 2)%Q in
    let centerY := (rect_top rect + rect_height rect / 2)%Q in
    match elementFromPoint (document world) centerX centerY with
    | None => false
    | Some topEl =>
        inAncestorChain (documentElement (document world)) element topEl
    end.

(* ------------------------------------------------------------------ *)
(** ** Interactivity *)

Definition interactiveCursors : list string :=
  ["pointer"; "move"; "text"; "grab"; "cell"].

Definition doesElementHaveInteractivePointer (element : Element) : bool :=
  if String.eqb (tagName element) "html" then false
  else inList (cursor (cachedStyle styles element)) interactiveCursors.

(** Attribute-substring selectors [[name*="w"]]. *)
Definition attrIncludes (name w : string) (e : Element) : bool :=
  match getAttribute e name with
  | Some s => Str.includes s w
  | None => false
  end.

Definition found (o : option Element) : bool :=
  match o with Some _ => true | None => false end.

Definition isCookieBannerElement (element : Element) : bool :=
  (found (closest (attrIncludes "id" "onetrust") element)
   || found (closest (attrIncludes "class" "onetrust") element)
   || found (closest (fun e => attrIs e "data-nosnippet" "true") element)
   || found (closest (attrIncludes "aria-label" "cookie") element))%bool.

Definition bannerButtonLike (element : Element) : bool :=
  (String.eqb (tagName element) "button"
   || attrIs element "role" "button"
   || onclick element
   || attrTruthy element "onclick"
   || (classListContains element "ot-sdk-button"
       || classListContains element "accept-button"
       || classListContains element "reject-button")
   || attrLowerIncludes element "aria-label" "accept"
   || attrLowerIncludes element "aria-label" "reject")%bool.

Definition interactiveElementsSet : list string :=
  ["a"; "button"; "details"; "embed"; "input"; "menu"; "menuitem";
   "object"; "select"; "textarea"; "canvas"; "summary"; "dialog";
   "banner"].

Definition interactiveRoles : list string :=
  ["button-icon"; "dialog"; "button-text-icon-only"; "treeitem"; "alert";
   "grid"; "progressbar"; "radio"; "checkbox"; "menuitem"; "option";
   "switch"; "dropdown"; "scrollbar"; "combobox"; "a-button-text"; "button";
   "region"; "textbox"; "tabpanel"; "tab"; "click"; "button-text";
   "spinbutton"; "a-button-inner"; "link"; "menu"; "slider"; "listbox";
   "a-dropdown-button"; "button-icon-only"; "searchbox"; "menuitemradio";
   "tooltip"; "tree"; "menuitemcheckbox"].

(** [set.has(element.getAttribute(name))] *)
Definition attrIn (e : Element) (name : string) (l : list string) : bool :=
  match getAttribute e name with Some s => inList s l | None => false end.

Definition hasAddressInputClass (element : Element) : bool :=
  (classListContains element "address-input__container__input"
   || classListContains element "nav-btn"
   || classListContains element "pull-left")%bool.

Definition dropdownMarker (element : Element) : bool :=
  (classListContains element "button"
   || classListContains element "dropdown-toggle"
   || attrTruthy element "data-index"
   || attrIs element "data-toggle" "dropdown"
   || attrIs element "aria-haspopup" "true")%bool.

Definition parentIsBody (element : Element) : bool :=
  match parentElement element with
  | Some p => String.eqb (tagName p) "body"
  | None => false
  end.

Definition hasInteractiveRole (element : Element) : bool :=
  (hasAddressInputClass element
   || inList (tagName element) interactiveElementsSet
   || attrIn element "role" interactiveRoles
   || attrIn element "aria-role" interactiveRoles
   || (hasAttribute element "tabindex"
       && negb (attrIs element "tabindex" "-1")
       && negb (parentIsBody element))
   || attrIs element "data-action" "a-dropdown-select"
   || attrIs element "data-action" "a-dropdown-button")%bool.

Definition idLowerIncludes (element : Element) (w : string) : bool :=
  Str.includes (Str.toLowerCase (elementId element)) w.

Definition isCookieBanner (element : Element) : bool :=
  (idLowerIncludes element "cookie"
   || idLowerIncludes element "consent"
   || idLowerIncludes element "notice"
   || (classListContains element "otCenterRounded"
       || classListContains element "ot-sdk-container")
   || attrIs element "data-nosnippet" "true"
   || attrLowerIncludes element "aria-label" "cookie"
   || attrLowerIncludes element "aria-label" "consent"
   || (String.eqb (tagName element) "div"
       && (idLowerIncludes element "onetrust"
           || (classListContains element "onetrust"
               || classListContains element "cookie"
               || classListContains element "consent"))))%bool.

Definition cookieContainerSelector (e : Element) : bool :=
  (attrIncludes "id" "cookie" e || attrIncludes "id" "consent" e
   || attrIncludes "class" "cookie" e || attrIncludes "class" "consent" e
   || attrIncludes "id" "onetrust" e)%bool.

Definition isInCookieBanner (element : Element) : bool :=
  found (closest cookieContainerSelector element).

Definition cookieButtonLike (element : Element) : bool :=
  (String.eqb (tagName element) "button"
   || attrIs element "role" "button"
   || classListContains element "button"
   || onclick element
   || attrTruthy element "onclick")%bool.

Definition hasClickHandler (element : Element) : bool :=
  (onclick element
   || hasAttribute element "onclick"
   || hasAttribute element "ng-click"
   || hasAttribute element "@click"
   || hasAttribute element "v-on:click")%bool.

(** The local helper [getEventListeners(el)] followed by the test on the
    click-family entries of its answer. *)
Definition hasClickListeners (element : Element) : bool :=
  match getEventListeners element with
  | ListenersUnavailable => false
  | ListenersOk c =>
      (Nat.ltb 0 (l_click c) || Nat.ltb 0 (l_mousedown c) || Nat.ltb 0 (l_mouseup c)
       || Nat.ltb 0 (l_touchstart c) || Nat.ltb 0 (l_touchend c))%bool
  | ListenersThrow =>
      (onclick element || onmousedown element || onmouseup element
       || ontouchstart element || ontouchend element)%bool
  end.

Definition hasAriaProps (element : Element) : bool :=
  (hasAttribute element "aria-expanded"
   || hasAttribute element "aria-pressed"
   || hasAttribute element "aria-selected"
   || hasAttribute element "aria-checked")%bool.

Definition isContentEditableLike (element : Element) : bool :=
  (attrIs element "contenteditable" "true"
   || isContentEditable element
   || String.eqb (elementId element) "tinymce"
   || classListContains element "mce-content-body"
   || (String.eqb (tagName element) "body"
       && match getAttribute element "data-id" with
          | Some s => Str.startsWith s "mce_"
          | None => false
          end))%bool.

Definition isDraggable (element : Element) : bool :=
  (draggable element || attrIs element "draggable" "true")%bool.

Definition isInteractiveElement (element : Element) : bool :=
  if attrIs element "role" "presentation" then false
  else if doesElementHaveInteractivePointer element then true
  else if (isCookieBannerElement element && bannerButtonLike element)%bool then true
  else if dropdownMarker element then true
  else if hasInteractiveRole element then true
  else if isCookieBanner element then true
  else if (isInCookieBanner element && cookieButtonLike element)%bool then true
  else
    (hasAriaProps element
     || hasClickHandler element
     || hasClickListeners element
     || isDraggable element
     || isContentEditableLike element)%bool.

(* ------------------------------------------------------------------ *)
(** ** Priority score *)

Definition tagPriority : list (string * Z) :=
  [("a", 10); ("button", 10); ("input", 10); ("select", 10); ("textarea", 10);
   ("canvas", 9); ("video", 9); ("audio", 9);
   ("label", 8); ("option", 8); ("fieldset", 8);
   ("summary", 9); ("details", 8); ("li", 8); ("td", 8); ("th", 8); ("tr", 7);
   ("form", 7); ("dialog", 9); ("menu", 8);
   ("div", 5); ("span", 3); ("i", 2); ("img", 7); ("p", 4); ("hr", 3); ("br", 1)].

Definition rolePriority : list (string * Z) :=
  [("button", 10); ("link", 10); ("menuitem", 9); ("tab", 9); ("checkbox", 9);
   ("radio", 9); ("combobox", 9); ("switch", 9); ("textbox", 9);
   ("searchbox", 9); ("spinbutton", 8); ("slider", 8);
   ("tabpanel", 8); ("dialog", 9); ("toolbar", 8); ("menu", 8); ("menubar", 8);
   ("tooltip", 7);
   ("treeitem", 8); ("listitem", 8); ("gridcell", 8); ("row", 7); ("cell", 7);
   ("presentation", 2); ("none", 1); ("img", 6)].

(** [table[key]]: [None] is [undefined]. *)
Fixpoint priorityOf (table : list (string * Z)) (key : string) : option Z :=
  match table with
  | (k, v) :: table' => if String.eqb key k then Some v else priorityOf table' key
  | [] => None
  end.

Definition orDefault (o : option Z) (d : Z) : Q :=
  match o with Some v => Zq v | None => Zq d end.

Definition bonus (b : bool) (v : Q) : Q := if b then v else 0%Q.

Definition textLength (el : Element) : Z :=
  Z.of_nat (String.length (Str.trim (textContent el))).

Definition classKeywords : list string :=
  ["btn"; "button"; "link"; "control"; "clickable"; "selectable"; "interactive"].

(** [parseInt(style.zIndex) > 1], and the bonus [min(1, zIndex / 100)]. *)
Definition zIndexBonus (style : CSSStyle) : Q :=
  match Str.parseInt (zIndex style) with
  | Some z => if (Str.nonEmpty (zIndex style) && (z >? 1))%bool
              then Qmin 1 (Zq z / 100)
              else 0%Q
  | None => 0%Q
  end.

Definition sizeBonus (el : Element) : Q :=
  let elRect := cachedRect rects el in
  let area := (rect_width elRect * rect_height elRect)%Q in
  if Qgtb area 10000 then 1%Q
  else if (Qltb area 400
           && negb (String.eqb (tagName el) "button")
           && negb (String.eqb (tagName el) "input"))%bool
       then (-1)%Q
       else 0%Q.

(** [getElementPriority(el)] for a node ([el] is never null at its call
    sites).  The script adds in binary floating point; the score here is the
    exact rational sum. *)
Definition getElementPriority (el : Element) : Q :=
  let tag := tagName el in
  let role := match getAttribute el "role" with Some r => r | None => "null" end in
  let style := cachedStyle styles el in
  let hasText := 0 <? textLength el in
  let hasChildren := Nat.ltb 0 (childrenLength el) in
  (Qmax (orDefault (priorityOf tagPriority tag) 5)
        (orDefault (priorityOf rolePriority role) 0)
   + bonus (attrIs el "contenteditable" "true" || isContentEditable el) 5
   + bonus (attrTruthy el "onclick" || onclick el) 4
   + bonus (attrTruthy el "href") (if String.eqb tag "a" then 4 else 2)
   + bonus (attrTruthy el "aria-expanded") 3
   + bonus (attrTruthy el "aria-controls") 3
   + bonus (attrTruthy el "aria-checked") 3
   + bonus (attrTruthy el "aria-selected") 3
   + bonus (attrTruthy el "aria-pressed") 3
   + bonus (attrTruthy el "aria-haspopup") 2
   + bonus (attrTruthy el "aria-label") 1
   + bonus (attrIs el "type" "submit" || attrIs el "type" "button") 3
   + bonus (attrTruthy el "placeholder") 1
   + bonus (attrTruthy el "required") 1
   + bonus (attrIs el "draggable" "true") 2
   + bonus (attrTruthy el "tabindex" && negb (attrIs el "tabindex" "-1")) 2
   + bonus (attrTruthy el "data-action") 2
   + bonus (attrTruthy el "data-toggle") 2
   + bonus (attrTruthy el "data-target") 1
   + bonus (attrTruthy el "id") 1
   + bonus (attrTruthy el "name") 1
   + (if hasText then Qmin 2 (Zq (textLength el) / 20)
      else bonus ((String.eqb tag "div" || String.eqb tag "span") && negb hasChildren) (-3))
   + bonus (String.eqb (cursor style) "pointer") 2
   + bonus (String.eqb (cursor style) "grab" || String.eqb (cursor style) "grabbing") 2
   + bonus (Str.nonEmpty (border style)
            && negb (String.eqb (border style) "none")
            && negb (Str.startsWith (border style) "0")) (1 # 2)
   + bonus (Str.nonEmpty (backgroundColor style)
            && negb (String.eqb (backgroundColor style) "transparent")
            && negb (String.eqb (backgroundColor style) "rgba(0, 0, 0, 0)")) (1 # 2)
   + zIndexBonus style
   + bonus (String.eqb (position style) "fixed" || String.eqb (position style) "absolute") 1
   + sizeBonus el
   + bonus (existsb (Str.includes (Str.toLowerCase (className el))) classKeywords) 2)%Q.

(* ------------------------------------------------------------------ *)
(** ** The processed-area ledger and the duplicate test *)

(** One entry of [processedElementAreas].  [pa_priority] and [pa_area] are
    set by the fast path only, [pa_isScrollbar] by the scrollbar detector. *)
Record ProcessedArea := mkArea {
  pa_left : Q;
  pa_top : Q;
  pa_right : Q;
  pa_bottom : Q;
  pa_element : Element;
  pa_priority : option Q;
  pa_area : option Q;
  pa_isScrollbar : bool
}.

Definition overlapLength (lo1 hi1 lo2 hi2 : Q) : Q :=
  Qmax 0 (Qmin hi1 hi2 - Qmax lo1 lo2).

Definition isTiny (rect : DOMRect) : bool :=
  (Qltb (rect_width rect) 5 || Qltb (rect_height rect) 5)%bool.

Definition atLeast15 (rect : DOMRect) : bool :=
  (Qgeb (rect_width rect) 15 && Qgeb (rect_height rect) 15)%bool.

Definition isHighPriorityElement (element : Element) (rect : DOMRect) : bool :=
  (Qgeb (getElementPriority element) 12
   || (attrIs element "contenteditable" "true" && atLeast15 rect)
   || (String.eqb (tagName element) "input" && atLeast15 rect)
   || (String.eqb (tagName element) "textarea" && atLeast15 rect)
   || (String.eqb (tagName element) "select" && atLeast15 rect))%bool.

(** What one round of a loop of the duplicate test decides. *)
Inductive Verdict :=
| ReturnTrue      (* [return true]: the candidate is a duplicate *)
| Break           (* leave the ancestor walk *)
| Splice          (* drop the ledger entry and go on *)
| Continue.       (* go on with the next ancestor or entry *)

Definition trimmedText (e : Element) : string := Str.trim (textContent e).

Definition strLen (s : string) : Q := Zq (Z.of_nat (String.length s)).

(** The body of the ancestor walk for one [parent]. *)
Definition checkParent (element : Element) (rect : DOMRect) (parent : Element) : Verdict :=
  let elementTag := tagName element in
  let elementPriority := getElementPriority element in
  let elementArea := (rect_width rect * rect_height rect)%Q in
  if isInteractiveElement parent then
    let parentRect := cachedRect rects parent in
    let overlapX := overlapLength (rect_left rect) (rect_right rect)
                      (rect_left parentRect) (rect_right parentRect) in
    let overlapY := overlapLength (rect_top rect) (rect_bottom rect)
                      (rect_top parentRect) (rect_bottom parentRect) in
    let overlapArea := (overlapX * overlapY)%Q in
    let containmentRatio := (overlapArea / elementArea)%Q in
    if Qgtb containmentRatio (85 # 100) then
      let parentPriority := getElementPriority parent in
      let priorityDiff := (elementPriority - parentPriority)%Q in
      let parentTag := tagName parent in
      if ((String.eqb elementTag "a" && String.eqb parentTag "li")
          || (String.eqb elementTag "li" && String.eqb parentTag "a"))%bool then Break
      else if (String.eqb elementTag "button" && String.eqb parentTag "form")%bool then Break
      else if (String.eqb elementTag "input" && String.eqb parentTag "label")%bool then Break
      else if ((String.eqb elementTag "i" || String.eqb elementTag "span")
               && (String.eqb parentTag "button" || attrIs parent "role" "button"))%bool
           then ReturnTrue
      else if Qgtb priorityDiff 3 then Break
      else if Qltb priorityDiff (-1) then ReturnTrue
      else
        let sizeRatio := (elementArea / (rect_width parentRect * rect_height parentRect))%Q in
        if Qltb sizeRatio (2 # 10) then Break
        else
          let elementText := trimmedText element in
          let parentText := trimmedText parent in
          if (Str.nonEmpty elementText
              && negb (String.eqb elementText parentText)
              && Qltb (strLen elementText) (strLen parentText * (7 # 10)))%bool
          then Break
          else ReturnTrue
    else Continue
  else Continue.

(** The ancestor walk; [true] when it ends in [return true]. *)
Fixpoint walkParents (element : Element) (rect : DOMRect) (chain : list Element) : bool :=
  match chain with
  | [] => false
  | parent :: chain' =>
      match checkParent element rect parent with
      | ReturnTrue => true
      | Break => false
      | _ => walkParents element rect chain'
      end
  end.

(** [parseInt(getCachedComputedStyle(e)?.zIndex || '0')] *)
Definition zIndexOf (e : Element) : option Z :=
  let z := zIndex (cachedStyle styles e) in
  Str.parseInt (if Str.nonEmpty z then z else "0").

(** [a > b + 1] on results of [parseInt]; false when either is [NaN]. *)
Definition aboveByMoreThan1 (a b : option Z) : bool :=
  match a, b with
  | Some x, Some y => x >? y + 1
  | _, _ => false
  end.

(** [tagPriority[a] > tagPriority[b] + 2]; false when either is [undefined]. *)
Definition tagOutranks (a b : string) : bool :=
  match priorityOf tagPriority a, priorityOf tagPriority b with
  | Some x, Some y => x >? y + 2
  | _, _ => false
  end.

(** [processedArea.priority || getElementPriority(existingElement)] *)
Definition existingPriorityOf (processedArea : ProcessedArea) : Q :=
  match pa_priority processedArea with
  | Some p => if Qeq_bool p 0 then getElementPriority (pa_element processedArea) else p
  | None => getElementPriority (pa_element processedArea)
  end.

Definition nearIdentical (rect : DOMRect) (processedArea : ProcessedArea) : bool :=
  (Qltb (Qabs (rect_left rect - pa_left processedArea)) 3
   && Qltb (Qabs (rect_top rect - pa_top processedArea)) 3
   && Qltb (Qabs (rect_width rect - (pa_right processedArea - pa_left processedArea))) 3
   && Qltb (Qabs (rect_height rect - (pa_bottom processedArea - pa_top processedArea))) 3)%bool.

(** The tie-break heuristics for entries of similar priority. *)
Definition similarPriorityVerdict (element : Element) (rect : DOMRect)
  (processedArea : ProcessedArea) : Verdict :=
  let elementTag := tagName element in
  let elementArea := (rect_width rect * rect_height rect)%Q in
  let processedElementArea :=
    ((pa_right processedArea - pa_left processedArea)
     * (pa_bottom processedArea - pa_top processedArea))%Q in
  let existingElement := pa_element processedArea in
  let existingTag := tagName existingElement in
  let elementText := trimmedText element in
  let existingText := trimmedText existingElement in
  if ((String.eqb elementTag "i" || String.eqb elementTag "span")
      && negb (Str.nonEmpty elementText)
      && (String.eqb existingTag "button" || attrIs existingElement "role" "button"))%bool
  then ReturnTrue
  else if (Str.nonEmpty elementText && Str.nonEmpty existingText
           && Qgtb (strLen existingText) (strLen elementText * (15 # 10)))%bool
  then ReturnTrue
  else if (Str.nonEmpty elementText && Str.nonEmpty existingText
           && Qgtb (strLen elementText) (strLen existingText * (15 # 10)))%bool
  then Splice
  else if tagOutranks existingTag elementTag then ReturnTrue
  else if tagOutranks elementTag existingTag then Splice
  else if Qgtb processedElementArea (elementArea * 3) then ReturnTrue
  else if Qgtb elementArea (processedElementArea * 3) then Splice
  else ReturnTrue.

(** The comparison by priority, after the z-index case. *)
Definition priorityVerdict (element : Element) (rect : DOMRect)
  (processedArea : ProcessedArea) : Verdict :=
  let priorityDiff := (getElementPriority element - existingPriorityOf processedArea)%Q in
  if Qgtb priorityDiff 2 then Splice
  else if Qltb priorityDiff (-(1 # 2)) then ReturnTrue
  else similarPriorityVerdict element rect processedArea.

(** The body of the ledger loop for one entry. *)
Definition checkProcessed (element : Element) (rect : DOMRect)
  (processedArea : ProcessedArea) : Verdict :=
  let elementArea := (rect_width rect * rect_height rect)%Q in
  let overlapX := overlapLength (rect_left rect) (rect_right rect)
                    (pa_left processedArea) (pa_right processedArea) in
  let overlapY := overlapLength (rect_top rect) (rect_bottom rect)
                    (pa_top processedArea) (pa_bottom processedArea) in
  if (Qleb overlapX 0 || Qleb overlapY 0)%bool then Continue
  else
    let overlapArea := (overlapX * overlapY)%Q in
    let processedElementArea :=
      ((pa_right processedArea - pa_left processedArea)
       * (pa_bottom processedArea - pa_top processedArea))%Q in
    let smallerArea := Qmin elementArea processedElementArea in
    let overlapRatio := (overlapArea / smallerArea)%Q in
    if Qgtb overlapRatio (6 # 10) then
      let existingElement := pa_element processedArea in
      if (nearIdentical rect processedArea
          && aboveByMoreThan1 (zIndexOf element) (zIndexOf existingElement))%bool
      then Splice
      else if (nearIdentical rect processedArea
               && aboveByMoreThan1 (zIndexOf existingElement) (zIndexOf element))%bool
      then ReturnTrue
      else priorityVerdict element rect processedArea
    else Continue.

(** The ledger loop: the flag is [true] when the loop ends in [return true];
    the list is the ledger as the loop leaves it (entries spliced before a
    [return true] stay removed). *)
Fixpoint scanProcessed (element : Element) (rect : DOMRect)
  (areas : list ProcessedArea) : bool * list ProcessedArea :=
  match areas with
  | [] => (false, [])
  | processedArea :: areas' =>
      match checkProcessed element rect processedArea with
      | ReturnTrue => (true, processedArea :: areas')
      | Splice => scanProcessed element rect areas'
      | _ =>
          let '(dup, kept) := scanProcessed element rect areas' in
          (dup, processedArea :: kept)
      end
  end.

Definition areaOfRect (element : Element) (rect : DOMRect)
  (priority area : option Q) (scrollbar : bool) : ProcessedArea :=
  {| pa_left := rect_left rect;
     pa_top := rect_top rect;
     pa_right := rect_right rect;
     pa_bottom := rect_bottom rect;
     pa_element := element;
     pa_priority := priority;
     pa_area := area;
     pa_isScrollbar := scrollbar |}.

(** [isDuplicateInteractiveElement(element, rect)]: the returned flag and
    [processedElementAreas] after the call. *)
Definition isDuplicateInteractiveElement (element : Element) (rect : DOMRect)
  (processedElementAreas : list ProcessedArea) : bool * list ProcessedArea :=
  if isTiny rect then (true, processedElementAreas)
  else
    let elementPriority := getElementPriority element in
    let elementArea := (rect_width rect * rect_height rect)%Q in
    if isHighPriorityElement element rect then
      (false,
       (processedElementAreas
          ++ [areaOfRect element rect (Some elementPriority) (Some elementArea) false])%list)
    else if walkParents element rect (ancestors element) then (true, processedElementAreas)
    else
      let '(dup, areas) := scanProcessed element rect processedElementAreas in
      if dup then (true, areas)
      else (false, (areas ++ [areaOfRect element rect None None false])%list).

(* ------------------------------------------------------------------ *)
(** ** Descriptors and the state of a pass *)

Record BoundingBox := mkBox {
  bb_top : Z; bb_left : Z; bb_width : Z; bb_height : Z
}.

Definition roundRect (r : DOMRect) : BoundingBox :=
  {| bb_top := mathRound (rect_top r);
     bb_left := mathRound (rect_left r);
     bb_width := mathRound (rect_width r);
     bb_height := mathRound (rect_height r) |}.

Record Thumb := mkThumb { thumb_size : Q; thumb_position : Q }.

Record ScrollData := mkScrollData {
  hasVerticalScrollbar : bool;
  hasHorizontalScrollbar : bool;
  scrollbarWidth : Z;
  scrollbarHeight : Z;
  contentHeight : Z;
  contentWidth : Z;
  visibleHeight : Z;
  visibleWidth : Z;
  sd_scrollTop : Q;
  sd_scrollLeft : Q;
  maxScrollTop : Z;
  maxScrollLeft : Z;
  verticalThumb : option Thumb;
  horizontalThumb : option Thumb;
  isOverlayScrollbar : option bool    (* main scrollbars only *)
}.

(** One record of the output.  [ed_node] is the node the record was built
    from; it stands for the fields that are readings of that node alone
    ([jsPath], [attributes], the label and landmark context, the suggested
    interaction).  [inIframe] and [inShadowDOM] hold the frame and the shadow
    host whose identity the script records. *)
Record ElementData := mkData {
  ed_tagName : string;
  ed_node : option Element;
  highlightIndex : nat;
  boundingRect : BoundingBox;
  ed_text : string;
  isIframe : bool;
  crossDomain : bool;
  inIframe : option Element;
  inShadowDOM : option Element;
  isHiddenFileInput : bool;
  visibleParentTag : option string;
  scrollData : option ScrollData;
  isMainScrollbar : bool
}.

(** The mutable variables of one invocation: the [result] array, the
    [highlightIndex] counter (here [st_highlightIndex], the field of the
    records keeping the name), the ledger, and the labels drawn into the
    highlight container. *)
Record PassState := mkState {
  result : list ElementData;
  st_highlightIndex : nat;
  processedElementAreas : list ProcessedArea;
  overlays : list nat
}.

Definition setAreas (areas : list ProcessedArea) (st : PassState) : PassState :=
  {| result := result st;
     st_highlightIndex := st_highlightIndex st;
     processedElementAreas := areas;
     overlays := overlays st |}.

Definition highlightWanted (index : nat) : bool :=
  (doHighlightElements args
   && ((focusHighlightIndex args <? 0)
       || (focusHighlightIndex args =? Z.of_nat index)))%bool.

(** The sequence found at every emission site: [result.push(data)], the
    optional highlight of index [highlightIndex], then [highlightIndex++]. *)
Definition pushResult (data : nat -> ElementData) (st : PassState) : PassState :=
  {| result := (result st ++ [data (st_highlightIndex st)])%list;
     st_highlightIndex := S (st_highlightIndex st);
     processedElementAreas := processedElementAreas st;
     overlays := if highlightWanted (st_highlightIndex st)
                 then (overlays st ++ [st_highlightIndex st])%list
                 else overlays st |}.

(** [getElementText] *)
Definition getElementText (element : Element) : string :=
  String.substring 0 100 (Str.trim (textContent element)).

Definition createElementData (element : Element) (index : nat) : ElementData :=
  {| ed_tagName := tagName element;
     ed_node := Some element;
     highlightIndex := index;
     boundingRect := roundRect (getBoundingClientRect element);
     ed_text := getElementText element;
     isIframe := false;
     crossDomain := false;
     inIframe := None;
     inShadowDOM := None;
     isHiddenFileInput := false;
     visibleParentTag := None;
     scrollData := None;
     isMainScrollbar := false |}.

Definition withIframe (iframeElement : option Element) (d : ElementData) : ElementData :=
  match iframeElement with
  | Some f =>
      {| ed_tagName := ed_tagName d; ed_node := ed_node d;
         highlightIndex := highlightIndex d; boundingRect := boundingRect d;
         ed_text := ed_text d; isIframe := isIframe d; crossDomain := crossDomain d;
         inIframe := Some f;
         inShadowDOM := inShadowDOM d; isHiddenFileInput := isHiddenFileInput d;
         visibleParentTag := visibleParentTag d; scrollData := scrollData d;
         isMainScrollbar := isMainScrollbar d |}
  | None => d
  end.

Definition withShadowHost (host : Element) (d : ElementData) : ElementData :=
  {| ed_tagName := ed_tagName d; ed_node := ed_node d;
     highlightIndex := highlightIndex d; boundingRect := boundingRect d;
     ed_text := ed_text d; isIframe := isIframe d; crossDomain := crossDomain d;
     inIframe := inIframe d;
     inShadowDOM := Some host;
     isHiddenFileInput := isHiddenFileInput d;
     visibleParentTag := visibleParentTag d; scrollData := scrollData d;
     isMainScrollbar := isMainScrollbar d |}.

Definition asCrossDomainIframe (d : ElementData) : ElementData :=
  {| ed_tagName := ed_tagName d; ed_node := ed_node d;
     highlightIndex := highlightIndex d; boundingRect := boundingRect d;
     ed_text := ed_text d;
     isIframe := true;
     crossDomain := true;
     inIframe := inIframe d; inShadowDOM := inShadowDOM d;
     isHiddenFileInput := isHiddenFileInput d;
     visibleParentTag := visibleParentTag d; scrollData := scrollData d;
     isMainScrollbar := isMainScrollbar d |}.

Definition asHiddenFileInput (visibleParent : Element) (d : ElementData) : ElementData :=
  {| ed_tagName := ed_tagName d; ed_node := ed_node d;
     highlightIndex := highlightIndex d;
     boundingRect := roundRect (cachedRect rects visibleParent);
     ed_text := ed_text d; isIframe := isIframe d; crossDomain := crossDomain d;
     inIframe := inIframe d; inShadowDOM := inShadowDOM d;
     isHiddenFileInput := true;
     visibleParentTag := Some (tagName visibleParent);
     scrollData := scrollData d;
     isMainScrollbar := isMainScrollbar d |}.

(* ------------------------------------------------------------------ *)
(** ** Candidates of one document *)

Definition candidateTags : list string :=
  ["a"; "button"; "input"; "select"; "textarea"; "canvas"; "summary";
   "details"; "label"; "menu"; "menuitem"; "option"].

(** The selector of [processElementsInDocument]. *)
Definition candidateSelector (e : Element) : bool :=
  (inList (tagName e) candidateTags
   || hasAttribute e "role" || hasAttribute e "tabindex" || hasAttribute e "onclick"
   || attrIs e "contenteditable" "true"
   || classListContains e "button" || classListContains e "dropdown-toggle"
   || classListContains e "nav-btn"
   || attrIncludes "class" "btn" e
   || hasAttribute e "aria-haspopup" || hasAttribute e "data-toggle"
   || hasAttribute e "aria-expanded" || hasAttribute e "aria-pressed"
   || attrIs e "draggable" "true"
   || attrIncludes "class" "draggable" e || attrIncludes "class" "control" e
   || attrIncludes "class" "interactive" e || attrIncludes "class" "clickable" e
   || hasAttribute e "data-action")%bool.

(** [isElementInIframeViewport]: reads the boxes without the cache. *)
Definition isElementInIframeViewport (element iframe : Element) : bool :=
  if viewportExpansion args =? -1 then true
  else
    let iframeRect := getBoundingClientRect iframe in
    let elementRect := getBoundingClientRect element in
    let absoluteTop := (rect_top iframeRect + rect_top elementRect)%Q in
    let absoluteLeft := (rect_left iframeRect + rect_left elementRect)%Q in
    let absoluteBottom := (absoluteTop + rect_height elementRect)%Q in
    let absoluteRight := (absoluteLeft + rect_width elementRect)%Q in
    negb (outsideExpandedViewport absoluteBottom absoluteTop absoluteRight absoluteLeft).

(** [isTopElementWithIframeSupport]; [doc] is [element.ownerDocument]. *)
Definition isTopElementWithIframeSupport (doc : Document) (element : Element)
  (iframe : option Element) : bool :=
  match iframe with
  | None => isTopElement element
  | Some f =>
      let iframeRect := getBoundingClientRect f in
      let elementRect := getBoundingClientRect element in
      let absoluteTop := (rect_top iframeRect + rect_top elementRect)%Q in
      let absoluteLeft := (rect_left iframeRect + rect_left elementRect)%Q in
      let absoluteCenterX := (absoluteLeft + rect_width elementRect / 2)%Q in
      let absoluteCenterY := (absoluteTop + rect_height elementRect / 2)%Q in
      match elementFromPoint (document world) absoluteCenterX absoluteCenterY with
      | None => false
      | Some iframeElementAtPoint =>
          if inAncestorChain (documentElement (document world)) f iframeElementAtPoint
          then
            match elementFromPoint doc
                    (rect_left elementRect + rect_width elementRect / 2)%Q
                    (rect_top elementRect + rect_height elementRect / 2)%Q with
            | None => false
            | Some elementAtPoint =>
                inAncestorChain (documentElement doc) element elementAtPoint
            end
          else false
      end
  end.

Definition Candidate : Type := Element * DOMRect.

Definition rectArea (r : DOMRect) : Q := (rect_width r * rect_height r)%Q.

(** The four filters of the first pass. *)
Definition passesFilters (doc : Document) (iframeElement : option Element)
  (element : Element) : bool :=
  ((match iframeElement with
    | Some f => isElementInIframeViewport element f
    | None => isInViewport element
    end)
   && isElementVisible element
   && isTopElementWithIframeSupport doc element iframeElement
   && isInteractiveElement element)%bool.

Definition collectCandidates (doc : Document) (iframeElement : option Element)
  (potentialElements : list Element) : list Candidate :=
  List.map (fun element => (element, cachedRect rects element))
    (List.filter (passesFilters doc iframeElement) potentialElements).

(** [Array.prototype.sort] with the comparator [areaA - areaB]: a stable
    sort, smaller areas first. *)
Fixpoint insertByArea (c : Candidate) (sorted : list Candidate) : list Candidate :=
  match sorted with
  | [] => [c]
  | c' :: sorted' =>
      if Qleb (rectArea (snd c)) (rectArea (snd c')) then c :: c' :: sorted'
      else c' :: insertByArea c sorted'
  end.

Definition sortByArea (l : list Candidate) : list Candidate :=
  List.fold_right insertByArea [] l.

(** The second pass over the sorted candidates; [decorate] adds the frame and
    shadow-host fields. *)
Fixpoint processCandidates (decorate : ElementData -> ElementData)
  (candidates : list Candidate) (st : PassState) : PassState :=
  match candidates with
  | [] => st
  | (element, rect) :: candidates' =>
      let '(dup, areas) :=
        isDuplicateInteractiveElement element rect (processedElementAreas st) in
      let st1 := setAreas areas st in
      processCandidates decorate candidates'
        (if dup then st1
         else pushResult (fun index => decorate (createElementData element index)) st1)
  end.

(** The selector of [processHiddenFileInputs]. *)
Definition hiddenFileInputSelector (e : Element) : bool :=
  (String.eqb (tagName e) "input"
   && match getAttribute e "type" with
      | Some t => String.eqb (Str.toLowerCase t) "file"
      | None => false
      end
   && (classListContains e "hidden" || attrIncludes "style" "display: none" e))%bool.

Fixpoint findVisibleParent (doc : Document) (iframeElement : option Element)
  (chain : list Element) : option Element :=
  match chain with
  | [] => None
  | parentElement :: chain' =>
      if sameNode parentElement (body doc) then None
      else if (isTopElementWithIframeSupport doc parentElement iframeElement
               && isElementVisible parentElement)%bool
           then Some parentElement
           else findVisibleParent doc iframeElement chain'
  end.

Definition processHiddenFileInput (doc : Document) (iframeElement : option Element)
  (st : PassState) (fileInput : Element) : PassState :=
  match findVisibleParent doc iframeElement (ancestors fileInput) with
  | Some visibleParent =>
      pushResult
        (fun index =>
           withIframe iframeElement
             (asHiddenFileInput visibleParent (createElementData fileInput index)))
        st
  | None => st
  end.

Definition processHiddenFileInputs (doc : Document) (iframeElement : option Element)
  (st : PassState) : PassState :=
  List.fold_left (processHiddenFileInput doc iframeElement)
    (querySelectorAll hiddenFileInputSelector doc) st.

Definition processShadowHost (doc : Document) (iframeElement : option Element)
  (st : PassState) (host : Element) : PassState :=
  match shadowRoot host with
  | Some shadowAll =>
      processCandidates
        (fun d => withIframe iframeElement (withShadowHost host d))
        (sortByArea
           (collectCandidates doc iframeElement (List.filter candidateSelector shadowAll)))
        st
  | None => st
  end.

Definition processShadowDOMElements (doc : Document) (iframeElement : option Element)
  (st : PassState) : PassState :=
  List.fold_left (processShadowHost doc iframeElement) (allElements doc) st.

Definition processElementsInDocument (doc : Document) (iframeElement : option Element)
  (st : PassState) : PassState :=
  let candidateElements :=
    sortByArea (collectCandidates doc iframeElement (querySelectorAll candidateSelector doc)) in
  let st1 := processCandidates (withIframe iframeElement) candidateElements st in
  let st2 := processHiddenFileInputs doc iframeElement st1 in
  processShadowDOMElements doc iframeElement st2.

(* ------------------------------------------------------------------ *)
(** ** Frames *)

Definition isIframeTag (e : Element) : bool := String.eqb (tagName e) "iframe".

(** One round of the loop over [document.querySelectorAll('iframe')]. *)
Definition processIframe (st : PassState) (iframe : Element) : PassState :=
  if negb (isInViewport iframe) then st
  else if negb (isElementVisible iframe) then st
  else
    match contentDocument world iframe with
    | FrameDocument iframeDoc => processElementsInDocument iframeDoc (Some iframe) st
    | FrameNoDocument => st
    | FrameSecurityError =>
        if isInteractiveElement iframe
        then pushResult (fun index => asCrossDomainIframe (createElementData iframe index)) st
        else st
    end.

(* ------------------------------------------------------------------ *)
(** ** Scrollbars *)

Definition scrolls (v : string) : bool :=
  (String.eqb v "scroll" || String.eqb v "auto")%bool.

Definition elementHasVerticalScrollbar (element : Element) : bool :=
  let style := cachedStyle styles element in
  ((scrollHeight element >? clientHeight element)
   && (scrolls (overflow style) || scrolls (overflowY style)))%bool.

Definition elementHasHorizontalScrollbar (element : Element) : bool :=
  let style := cachedStyle styles element in
  ((scrollWidth element >? clientWidth element)
   && (scrolls (overflow style) || scrolls (overflowX style)))%bool.

(** The test of the loop over the ledger in [findScrollableElements]: an
    entry flagged as scrollbar that overlaps [rect] by more than 80% of the
    smaller area. *)
Definition overlapsScrollbar (rect : DOMRect) (processedArea : ProcessedArea) : bool :=
  if negb (pa_isScrollbar processedArea) then false
  else
    let overlapX := overlapLength (rect_left rect) (rect_right rect)
                      (pa_left processedArea) (pa_right processedArea) in
    let overlapY := overlapLength (rect_top rect) (rect_bottom rect)
                      (pa_top processedArea) (pa_bottom processedArea) in
    if (Qleb overlapX 0 || Qleb overlapY 0)%bool then false
    else
      let overlapArea := (overlapX * overlapY)%Q in
      let elementArea :=
        ((rect_right rect - rect_left rect) * (rect_bottom rect - rect_top rect))%Q in
      let processedElementArea :=
        ((pa_right processedArea - pa_left processedArea)
         * (pa_bottom processedArea - pa_top processedArea))%Q in
      let smallerArea := Qmin elementArea processedElementArea in
      Qgtb (overlapArea / smallerArea) (8 # 10).

Definition scrollbarType (hasV hasH : bool) : string :=
  if (hasV && hasH)%bool then "both"
  else if hasV then "vertical"
  else if hasH then "horizontal"
  else "".

Definition elementScrollData (element : Element) : ScrollData :=
  let hasV := elementHasVerticalScrollbar element in
  let hasH := elementHasHorizontalScrollbar element in
  let verticalThumbHeight :=
    Qmax 30 (Zq (clientHeight element) / Zq (scrollHeight element)
             * Zq (clientHeight element)) in
  let verticalThumbPosition :=
    (scrollTop element / Zq (scrollHeight element - clientHeight element)
     * (Zq (clientHeight element) - verticalThumbHeight))%Q in
  let horizontalThumbWidth :=
    Qmax 30 (Zq (clientWidth element) / Zq (scrollWidth element)
             * Zq (clientWidth element)) in
  let horizontalThumbPosition :=
    (scrollLeft element / Zq (scrollWidth element - clientWidth element)
     * (Zq (clientWidth element) - horizontalThumbWidth))%Q in
  {| hasVerticalScrollbar := hasV;
     hasHorizontalScrollbar := hasH;
     scrollbarWidth := offsetWidth element - clientWidth element;
     scrollbarHeight := offsetHeight element - clientHeight element;
     contentHeight := scrollHeight element;
     contentWidth := scrollWidth element;
     visibleHeight := clientHeight element;
     visibleWidth := clientWidth element;
     sd_scrollTop := scrollTop element;
     sd_scrollLeft := scrollLeft element;
     maxScrollTop := scrollHeight element - clientHeight element;
     maxScrollLeft := scrollWidth element - clientWidth element;
     verticalThumb :=
       if hasV then Some (mkThumb verticalThumbHeight verticalThumbPosition) else None;
     horizontalThumb :=
       if hasH then Some (mkThumb horizontalThumbWidth horizontalThumbPosition) else None;
     isOverlayScrollbar := None |}.

Definition scrollRegionData (element : Element) (index : nat) : ElementData :=
  {| ed_tagName :=
       "scrollbar:" ++ tagName element ++ "-"
       ++ scrollbarType (elementHasVerticalScrollbar element)
            (elementHasHorizontalScrollbar element);
     ed_node := Some element;
     highlightIndex := index;
     boundingRect := roundRect (cachedRect rects element);
     ed_text := getElementText element;
     isIframe := false;
     crossDomain := false;
     inIframe := None;
     inShadowDOM := None;
     isHiddenFileInput := false;
     visibleParentTag := None;
     scrollData := Some (elementScrollData element);
     isMainScrollbar := false |}.

(** One round of the loop of [findScrollableElements]. *)
Definition processScrollable (st : PassState) (element : Element) : PassState :=
  if (negb (isInViewport element) || negb (isElementVisible element))%bool then st
  else if ((clientWidth element <? 10) || (clientHeight element <? 10))%bool then st
  else
    let hasV := elementHasVerticalScrollbar element in
    let hasH := elementHasHorizontalScrollbar element in
    if (hasV || hasH)%bool then
      if negb (isTopElement element) then st
      else
        let scrollbarWidth := offsetWidth element - clientWidth element in
        let scrollbarHeight := offsetHeight element - clientHeight element in
        if ((hasV && (scrollbarWidth <? 1)) || (hasH && (scrollbarHeight <? 1)))%bool then st
        else
          let rect := cachedRect rects element in
          if existsb (overlapsScrollbar rect) (processedElementAreas st) then st
          else
            pushResult (scrollRegionData element)
              (setAreas
                 (processedElementAreas st ++ [areaOfRect element rect None None true])%list
                 st)
    else st.

Definition findScrollableElements (st : PassState) : PassState :=
  List.fold_left processScrollable (allElements (document world)) st.

Definition mainScrollData (vertical : bool) : ScrollData :=
  let root := documentElement (document world) in
  let verticalScrollbarWidth := innerWidth world - clientWidth root in
  let horizontalScrollbarHeight := innerHeight world - clientHeight root in
  let thumbHeight :=
    Qmax 40 (Zq (innerHeight world) / Zq (scrollHeight root) * Zq (innerHeight world)) in
  let thumbWidth :=
    Qmax 40 (Zq (innerWidth world) / Zq (scrollWidth root) * Zq (innerWidth world)) in
  let verticalPercentage := (scrollTop root / Zq (scrollHeight root - innerHeight world))%Q in
  let horizontalPercentage := (scrollLeft root / Zq (scrollWidth root - innerWidth world))%Q in
  {| hasVerticalScrollbar := vertical;
     hasHorizontalScrollbar := negb vertical;
     scrollbarWidth := if vertical then verticalScrollbarWidth else 0;
     scrollbarHeight := if vertical then 0 else horizontalScrollbarHeight;
     contentHeight := scrollHeight root;
     contentWidth := scrollWidth root;
     visibleHeight := innerHeight world;
     visibleWidth := innerWidth world;
     sd_scrollTop := scrollTop root;
     sd_scrollLeft := scrollLeft root;
     maxScrollTop := scrollHeight root - innerHeight world;
     maxScrollLeft := scrollWidth root - innerWidth world;
     verticalThumb :=
       if vertical
       then Some (mkThumb thumbHeight
                    (verticalPercentage * (Zq (innerHeight world) - thumbHeight))%Q)
       else None;
     horizontalThumb :=
       if vertical then None
       else Some (mkThumb thumbWidth
                    (horizontalPercentage * (Zq (innerWidth world) - thumbWidth))%Q);
     isOverlayScrollbar :=
       Some (if vertical then verticalScrollbarWidth =? 0
             else horizontalScrollbarHeight =? 0) |}.

Definition mainScrollbarData (vertical : bool) (index : nat) : ElementData :=
  let root := documentElement (document world) in
  let displayWidth := Z.max (innerWidth world - clientWidth root) 8 in
  let displayHeight := Z.max (innerHeight world - clientHeight root) 8 in
  {| ed_tagName := if vertical then "scrollbar:main-vertical" else "scrollbar:main-horizontal";
     ed_node := None;
     highlightIndex := index;
     boundingRect :=
       if vertical
       then {| bb_top := 0; bb_left := innerWidth world - displayWidth;
               bb_width := displayWidth; bb_height := innerHeight world |}
       else {| bb_top := innerHeight world - displayHeight; bb_left := 0;
               bb_width := innerWidth world; bb_height := displayHeight |};
     ed_text := "";
     isIframe := false;
     crossDomain := false;
     inIframe := None;
     inShadowDOM := None;
     isHiddenFileInput := false;
     visibleParentTag := None;
     scrollData := Some (mainScrollData vertical);
     isMainScrollbar := true |}.

Definition findMainBrowserScrollbars (st : PassState) : PassState :=
  let root := documentElement (document world) in
  let hasVertical := scrollHeight root >? innerHeight world in
  let verticalScrollbarWidth := innerWidth world - clientWidth root in
  let hasHorizontal := scrollWidth root >? innerWidth world in
  let horizontalScrollbarHeight := innerHeight world - clientHeight root in
  let st1 :=
    if (hasVertical && (0 <=? verticalScrollbarWidth))%bool
    then pushResult (mainScrollbarData true) st else st in
  if (hasHorizontal && (0 <=? horizontalScrollbarHeight))%bool
  then pushResult (mainScrollbarData false) st1 else st1.

(* ------------------------------------------------------------------ *)
(** ** The pass *)

(** What [findViewportInteractiveElements] resets before it starts: the
    highlight container, [highlightIndex] and the ledger. *)
Definition initialState : PassState :=
  {| result := []; st_highlightIndex := 0%nat;
     processedElementAreas := []; overlays := [] |}.

Definition runPass : PassState :=
  let st1 := processElementsInDocument (document world) None initialState in
  let st2 := List.fold_left processIframe (querySelectorAll isIframeTag (document world)) st1 in
  let st3 := findScrollableElements st2 in
  findMainBrowserScrollbars st3.

Definition findViewportInteractiveElements : list ElementData := result runPass.

End Pass.

(** The classifiers and the score are large case analyses: [simpl] leaves
    them folded. *)
Arguments getElementPriority : simpl never.
Arguments isInteractiveElement : simpl never.
Arguments isHighPriorityElement : simpl never.
Arguments checkParent : simpl never.
Arguments checkProcessed : simpl never.
Arguments walkParents : simpl never.
Arguments isDuplicateInteractiveElement : simpl never.
Arguments isTopElement : simpl never.
Arguments isInViewport : simpl never.
Arguments isElementVisible : simpl never.
Arguments passesFilters : simpl never.
Arguments scrollRegionData : simpl never.
Arguments mainScrollbarData : simpl never.
Arguments overlapsScrollbar : simpl never.
Arguments zIndexOf : simpl never.
Arguments nearIdentical : simpl never.

(** The three readings of the clock during one invocation: when [DOM_CACHE]
    is built, inside [clearCache], and for the [timestamp] of the result. *)
Record Clock := mkClock { t_created : Z; t_cleared : Z; t_stamp : Z }.

Record AnalysisResult := mkResult {
  timestamp : Z;
  viewportSize : WindowSize;
  interactiveElements : list ElementData
}.

Definition windowSize (world : World) : WindowSize :=
  {| ws_width := innerWidth world; ws_height := innerHeight world |}.

(** [window.domTreeResult(args)].  [DOM_CACHE] is a local of the call: it is
    built anew on entry and cleared (or not) before the pass. *)
Definition domTreeResult (args : Args) (world : World) (clock : Clock) : AnalysisResult :=
  let DOM_CACHE := newDomCache (windowSize world) (t_created clock) in
  let '(cacheClearedOnThisRun, DOM_CACHE') :=
    clearCache false (windowSize world) (t_cleared clock) DOM_CACHE in
  {| timestamp := t_stamp clock;
     viewportSize := windowSize world;
     interactiveElements :=
       findViewportInteractiveElements args world
         (boundingRects DOM_CACHE') (computedStyles DOM_CACHE') |}.

(* ------------------------------------------------------------------ *)
(** ** Concrete pages *)

Definition plainStyle : CSSStyle :=
  {| cursor := "auto"; visibility := "visible"; display := "block"; opacity := "1";
     border := "0px none rgb(0, 0, 0)"; backgroundColor := "rgba(0, 0, 0, 0)";
     zIndex := "auto"; position := "static";
     overflow := "visible"; overflowX := "visible"; overflowY := "visible" |}.

(** A node without scrolling or shadow tree, whose offset and client sizes
    are its box; its [onclick] property is set when the attribute is. *)
Definition node (id : nat) (tag : string) (attributes : list (string * string))
  (text : string) (parent : option Element) (rect : DOMRect) (style : CSSStyle) : Element :=
  {| nodeId := id; tagName := tag; attrs := attributes; textContent := text;
     childrenLength := 0; parentElement := parent;
     onclick := match assoc "onclick" attributes with Some _ => true | None => false end;
     onmousedown := false; onmouseup := false;
     ontouchstart := false; ontouchend := false;
     draggable := false; isContentEditable := false; inlineDisplay := "";
     offsetWidth := mathRound (rect_width rect);
     offsetHeight := mathRound (rect_height rect);
     clientWidth := mathRound (rect_width rect);
     clientHeight := mathRound (rect_height rect);
     scrollWidth := mathRound (rect_width rect);
     scrollHeight := mathRound (rect_height rect);
     scrollTop := 0; scrollLeft := 0;
     getBoundingClientRect := rect; getComputedStyle := style;
     getEventListeners := ListenersUnavailable; shadowRoot := None |}.

(** A scroll container: a node with the given offset, client and scroll
    sizes. *)
Definition scroller (id : nat) (tag : string) (parent : option Element)
  (rect : DOMRect) (style : CSSStyle)
  (offsetW offsetH clientW clientH scrollW scrollH : Z) : Element :=
  {| nodeId := id; tagName := tag; attrs := []; textContent := "";
     childrenLength := 0; parentElement := parent;
     onclick := false; onmousedown := false; onmouseup := false;
     ontouchstart := false; ontouchend := false;
     draggable := false; isContentEditable := false; inlineDisplay := "";
     offsetWidth := offsetW; offsetHeight := offsetH;
     clientWidth := clientW; clientHeight := clientH;
     scrollWidth := scrollW; scrollHeight := scrollH;
     scrollTop := 0; scrollLeft := 0;
     getBoundingClientRect := rect; getComputedStyle := style;
     getEventListeners := ListenersUnavailable; shadowRoot := None |}.

Definition htmlNode : Element :=
  node 0 "html" [] "" None (mkRect 0 0 1024 768) plainStyle.

Definition bodyNode : Element :=
  node 1 "body" [] "" (Some htmlNode) (mkRect 0 0 1024 768) plainStyle.

Definition containsPoint (x y : Q) (e : Element) : bool :=
  let r := getBoundingClientRect e in
  (Qleb (rect_left r) x && Qltb x (rect_right r)
   && Qleb (rect_top r) y && Qltb y (rect_bottom r))%bool.

(** Hit testing over a paint stack, topmost node first; points outside the
    1024x768 window hit nothing. *)
Definition hitTest (stack : list Element) (x y : Q) : option Element :=
  if (Qleb 0 x && Qltb x 1024 && Qleb 0 y && Qltb y 768)%bool
  then List.find (containsPoint x y) stack
  else None.

(** A document with root [html], body [bodyEl] and the given nodes below it;
    [stack] is the paint order of these nodes, topmost first. *)
Definition pageOf (html bodyEl : Element) (nodes stack : list Element) : Document :=
  {| allElements := html :: bodyEl :: nodes;
     documentElement := html;
     body := bodyEl;
     elementFromPoint := hitTest (stack ++ [bodyEl; html])%list |}.

Definition page (nodes stack : list Element) : Document :=
  pageOf htmlNode bodyNode nodes stack.

(** A 1024x768 window on [doc]. *)
Definition windowOn (doc : Document) (frames : Element -> FrameAccess) : World :=
  {| innerWidth := 1024; innerHeight := 768; document := doc;
     contentDocument := frames |}.

Definition noFrames (_ : Element) : FrameAccess := FrameNoDocument.

(** A link of 4x20 pixels with [href], [onclick] and [id]. *)
Definition tinyLink : Element :=
  node 2 "a" [("href", "/buy"); ("onclick", "buy()"); ("id", "buy")] "Buy"
    (Some bodyNode) (mkRect 10 10 4 20) plainStyle.

Definition tinyLinkWorld : World := windowOn (page [tinyLink] [tinyLink]) noFrames.

(** The state of the cache right after a forced clear at time 0, with the
    box of [tinyLink] stored since. *)
Definition cacheClearedAt0 : DomCache :=
  snd (getCachedBoundingRect
         (snd (clearCache true (mkWindowSize 1024 768) 0
                 (newDomCache (mkWindowSize 1024 768) 0)))
         tinyLink).

(** A button that carries every later mark of interactivity, and
    [role="presentation"]. *)
Definition presentationButton : Element :=
  {| nodeId := 2; tagName := "button";
     attrs := [("role", "presentation"); ("onclick", "go()"); ("class", "btn button");
               ("aria-expanded", "false"); ("draggable", "true");
               ("contenteditable", "true"); ("tabindex", "0")];
     textContent := "Go"; childrenLength := 0; parentElement := Some bodyNode;
     onclick := true; onmousedown := true; onmouseup := false;
     ontouchstart := false; ontouchend := false;
     draggable := true; isContentEditable := true; inlineDisplay := "";
     offsetWidth := 80; offsetHeight := 30; clientWidth := 80; clientHeight := 30;
     scrollWidth := 80; scrollHeight := 30; scrollTop := 0; scrollLeft := 0;
     getBoundingClientRect := mkRect 10 10 80 30;
     getComputedStyle :=
       {| cursor := "pointer"; visibility := "visible"; display := "block";
          opacity := "1"; border := "1px solid rgb(0, 0, 0)";
          backgroundColor := "rgb(0, 0, 255)"; zIndex := "10"; position := "static";
          overflow := "visible"; overflowX := "visible"; overflowY := "visible" |};
     getEventListeners := ListenersOk (mkListeners 1 0 0 0 0);
     shadowRoot := None |}.

(** A page taller than the window, with a button 5000 pixels down. *)
Definition tallHtml : Element :=
  scroller 0 "html" None (mkRect 0 0 1024 6000) plainStyle 1024 768 1024 768 1024 6000.

Definition tallBody : Element :=
  node 1 "body" [] "" (Some tallHtml) (mkRect 0 0 1024 6000) plainStyle.

Definition farButton : Element :=
  node 2 "button" [("id", "far")] "Far away" (Some tallBody) (mkRect 10 5000 80 30) plainStyle.

Definition farButtonWorld : World :=
  windowOn (pageOf tallHtml tallBody [farButton] [farButton]) noFrames.


(** A span that scores 21 inside a button of the same box. *)
Definition hostButton : Element :=
  node 2 "button" [("id", "menu")] "Menu" (Some bodyNode) (mkRect 10 10 80 30) plainStyle.

Definition richSpan : Element :=
  node 3 "span"
    [("role", "button"); ("onclick", "open()"); ("aria-expanded", "false");
     ("aria-pressed", "false"); ("id", "menu-label")]
    "Menu" (Some hostButton) (mkRect 10 10 80 30) plainStyle.

Definition richSpanWorld : World :=
  windowOn (page [hostButton; richSpan] [richSpan; hostButton]) noFrames.




(** A small low-scoring span painted over the corner of a larger,
    higher-scoring [div]; neither is on the fast path. *)
Definition navSpan : Element :=
  node 2 "span" [("class", "nav-btn")] "x"
    (Some bodyNode) (mkRect 0 0 50 20) plainStyle.

Definition clickDiv : Element :=
  node 3 "div" [("onclick", "open()")] "Open"
    (Some bodyNode) (mkRect 0 0 200 100) plainStyle.

Definition spanOverDivWorld : World :=
  windowOn (page [navSpan; clickDiv] [navSpan; clickDiv]) noFrames.





(** A scroll container of 300x400 pixels with 2000 pixels of content and
    [overflow-y: auto]; [gutter] is the width of its vertical scrollbar. *)
Definition autoScrollStyle : CSSStyle :=
  {| cursor := "auto"; visibility := "visible"; display := "block"; opacity := "1";
     border := "0px none rgb(0, 0, 0)"; backgroundColor := "rgba(0, 0, 0, 0)";
     zIndex := "auto"; position := "static";
     overflow := "visible"; overflowX := "visible"; overflowY := "auto" |}.

Definition scrollPane (gutter : Z) : Element :=
  scroller 2 "div" (Some bodyNode) (mkRect 100 100 300 400) autoScrollStyle
    300 400 (300 - gutter) 400 (300 - gutter) 2000.

Definition scrollPaneWorld (gutter : Z) : World :=
  windowOn (page [scrollPane gutter] [scrollPane gutter]) noFrames.


(* ------------------------------------------------------------------ *)
(** ** Statements *)

(** When [clearCache] is due. *)
Definition clearDue (force : bool) (win : WindowSize) (now : Z) (c : DomCache) : Prop :=
  force = true
  \/ ws_width win <> ws_width (previousWindowSize c)
  \/ ws_height win <> ws_height (previousWindowSize c)
  \/ 30000 < now - lastRunTimestamp c.

(** C5 as the specification words it: both maps are reset exactly when
    [force] is set, the window size changed, or at least 30000 ms have
    passed. *)
Definition clearCache_as_specified (force : bool) (win : WindowSize) (now : Z)
  (c : DomCache) : Prop :=
  (boundingRects (snd (clearCache force win now c)) = ∅
   /\ computedStyles (snd (clearCache force win now c)) = ∅)
  <-> (force = true
       \/ ws_width win <> ws_width (previousWindowSize c)
       \/ ws_height win <> ws_height (previousWindowSize c)
       \/ 30000 <= now - lastRunTimestamp c).


(** [st'] continues [st]: its result is that of [st] followed by records
    that satisfy [P] and that are numbered, in order, from the counter of
    [st], which advances by their number. *)
Definition Emits (P : ElementData -> Prop) (st st' : PassState) : Prop :=
  exists l,
    result st' = (result st ++ l)%list
    /\ st_highlightIndex st' = (st_highlightIndex st + length l)%nat
    /\ List.map highlightIndex l = seq (st_highlightIndex st) (length l)
    /\ Forall P l.

Section Shapes.

Variable world : World.
Variable rects : gmap nat DOMRect.
Variable styles : gmap nat CSSStyle.

(** The records that [processElementsInDocument] can add for a document
    reached through [iframeElement]. *)
Inductive DocEmitted (iframeElement : option Element) : ElementData -> Prop :=
| de_candidate (element : Element) (index : nat) :
    isTiny (cachedRect rects element) = false ->
    DocEmitted iframeElement (withIframe iframeElement (createElementData element index))
| de_shadow (host element : Element) (index : nat) :
    isTiny (cachedRect rects element) = false ->
    DocEmitted iframeElement
      (withIframe iframeElement (withShadowHost host (createElementData element index)))
| de_hidden (fileInput visibleParent : Element) (index : nat) :
    DocEmitted iframeElement
      (withIframe iframeElement
         (asHiddenFileInput rects visibleParent (createElementData fileInput index))).

(** The records that a pass can add. *)
Inductive Emitted : ElementData -> Prop :=
| em_document (d : ElementData) :
    DocEmitted None d -> Emitted d
| em_frame (iframe : Element) (iframeDoc : Document) (d : ElementData) :
    contentDocument world iframe = FrameDocument iframeDoc ->
    DocEmitted (Some iframe) d -> Emitted d
| em_crossDomain (iframe : Element) (index : nat) :
    contentDocument world iframe = FrameSecurityError ->
    isInteractiveElement styles iframe = true ->
    Emitted (asCrossDomainIframe (createElementData iframe index))
| em_scrollRegion (element : Element) (index : nat) :
    In element (allElements (document world)) ->
    Emitted (scrollRegionData rects styles element index)
| em_mainScrollbar (vertical : bool) (index : nat) :
    Emitted (mainScrollbarData world vertical index).

End Shapes.

(** An ordinary element record: neither a cross-origin frame placeholder, nor
    a hidden-file-input proxy, nor a scroll region or scrollbar. *)
Definition isOrdinary (d : ElementData) : bool :=
  (negb (crossDomain d) && negb (isHiddenFileInput d)
   && match scrollData d with Some _ => false | None => true end)%bool.

(** The record describes node [e]. *)
Definition describes (e : Element) (d : ElementData) : bool :=
  match ed_node d with
  | Some n => sameNode n e
  | None => false
  end.



Definition countIf {A : Type} (p : A -> bool) (l : list A) : nat :=
  length (List.filter p l).


(** The record is the scroll region of node [element]. *)
Definition isScrollRegionOf (element : Element) (d : ElementData) : bool :=
  match scrollData d with
  | Some _ => (negb (isMainScrollbar d) && describes element d)%bool
  | None => false
  end.

(** The computed overflow lets the node scroll on some axis and its content
    exceeds its client box there. *)
Definition canScroll (styles : gmap nat CSSStyle) (element : Element) : bool :=
  (elementHasVerticalScrollbar styles element
   || elementHasHorizontalScrollbar styles element)%bool.

(** The ledger holds no entry of the scrollbar detector. *)
Definition noScrollbarEntries (st : PassState) : Prop :=
  Forall (fun processedArea => pa_isScrollbar processedArea = false)
    (processedElementAreas st).

(* ------------------------------------------------------------------ *)
(** ** The fields of a record that are readings of its node *)

From Stdlib Require Import DecimalString Sorted Permutation.

(** *** Suggested interaction *)

Record Interaction := mkInteraction {
  action : string;
  alternativeAction : option string
}.

Definition textInputTypes : list string :=
  ["text"; "email"; "password"; "search"; "tel"; "url"; "number"].

(** [(element.getAttribute(name) || '').toLowerCase()] *)
Definition attrLowerOrEmpty (e : Element) (name : string) : string :=
  match getAttribute e name with
  | Some s => Str.toLowerCase s
  | None => ""
  end.

(** [addPlaywrightInteractions(element, elementData)].  [checked] is the
    [checked] property of the node, read for checkboxes.  The flag
    [elementData.isHiddenFileInput] selects between two branches that assign
    the same action, so it is not an argument. *)
Definition addPlaywrightInteractions (element : Element) (checked : bool) : Interaction :=
  let tag := tagName element in
  let type := attrLowerOrEmpty element "type" in
  let role := attrLowerOrEmpty element "role" in
  let editable :=
    (attrIs element "contenteditable" "true" || isContentEditable element)%bool in
  let chosen :=
    if String.eqb tag "input" then
      if String.eqb type "file" then "setInputFiles"
      else if inList type textInputTypes then "fill"
      else if String.eqb type "checkbox" then (if checked then "uncheck" else "check")
      else if String.eqb type "radio" then "check"
      else if String.eqb type "range" then "fill"
      else if (String.eqb type "date" || String.eqb type "datetime-local"
               || String.eqb type "month" || String.eqb type "time"
               || String.eqb type "week")%bool then "fill"
      else if String.eqb type "color" then "fill"
      else "fill"
    else if String.eqb tag "textarea" then "fill"
    else if String.eqb tag "select" then "selectOption"
    else if String.eqb tag "a" then "click"
    else if (String.eqb tag "button" || String.eqb role "button")%bool then "click"
    else if inList role ["checkbox"; "switch"] then "click"
    else if String.eqb role "radio" then "click"
    else if String.eqb role "tab" then "click"
    else if (String.eqb role "combobox" || String.eqb role "listbox")%bool then "click"
    else if String.eqb role "menuitem" then "click"
    else if String.eqb role "slider" then "fill"
    else if editable then "fill"
    else if (String.eqb tag "details" || String.eqb tag "summary")%bool then "click"
    else if String.eqb tag "dialog" then "waitFor"
    else if String.eqb tag "canvas" then "click"
    else "click" in
  let afterDrag :=
    if attrIs element "draggable" "true" then Some "drag" else None in
  {| action := chosen;
     alternativeAction :=
       if (attrTruthy element "data-tooltip" || attrTruthy element "title")%bool
       then Some "hover" else afterDrag |}.

(** *** Captured attributes *)

Definition standardAttributes : list string :=
  ["id"; "class"; "name"; "type"; "href"; "src"; "alt"; "title";
   "placeholder"; "value"; "draggable"; "required"; "disabled";
   "checked"; "selected"; "readonly"; "maxlength"; "minlength";
   "max"; "min"; "step"; "pattern"; "form"; "for"; "tabindex";
   "target"; "action"; "method"; "rel"; "download"].

Definition ariaAttributes : list string :=
  ["role"; "aria-label"; "aria-labelledby"; "aria-describedby";
   "aria-description"; "aria-details"; "aria-expanded"; "aria-haspopup";
   "aria-hidden"; "aria-invalid"; "aria-keyshortcuts"; "aria-level";
   "aria-live"; "aria-modal"; "aria-multiline"; "aria-multiselectable";
   "aria-orientation"; "aria-placeholder"; "aria-posinset"; "aria-pressed";
   "aria-readonly"; "aria-required"; "aria-roledescription"; "aria-selected";
   "aria-setsize"; "aria-sort"; "aria-valuemax"; "aria-valuemin";
   "aria-valuenow"; "aria-valuetext"; "aria-atomic"; "aria-busy";
   "aria-disabled"; "aria-grabbed"; "aria-activedescendant"; "aria-autocomplete";
   "aria-controls"; "aria-current"; "aria-dropeffect"; "aria-flowto";
   "aria-owns"; "aria-relevant"; "aria-checked"].

(** [obj[key] = value] on an object kept as the list of its properties in
    insertion order: an existing key keeps its place. *)
Fixpoint setProperty (key value : string) (obj : list (string * string))
  : list (string * string) :=
  match obj with
  | [] => [(key, value)]
  | (k, v) :: obj' =>
      if String.eqb key k then (key, value) :: obj'
      else (k, v) :: setProperty key value obj'
  end.

(** The loop [for (const attr of names) if (element.hasAttribute(attr))
    attributes[attr] = element.getAttribute(attr)]. *)
Definition captureListed (element : Element) (names : list string)
  (obj : list (string * string)) : list (string * string) :=
  List.fold_left
    (fun attributes attr =>
       match getAttribute element attr with
       | Some value => setProperty attr value attributes
       | None => attributes
       end)
    names obj.

(** The loop over [element.attributes] that fills [dataAttributes]. *)
Definition captureData (element : Element) : list (string * string) :=
  List.fold_left
    (fun dataAttributes attr =>
       if Str.startsWith (fst attr) "data-"
       then setProperty (fst attr) (snd attr) dataAttributes
       else dataAttributes)
    (attrs element) [].

(** The object that [getElementAttributes] returns: the listed attributes,
    and under [dataAttributes] the [data-*] attributes when there is one. *)
Record CapturedAttributes := mkCaptured {
  listedAttributes : list (string * string);
  dataAttributes : option (list (string * string))
}.

Definition getElementAttributes (element : Element) : CapturedAttributes :=
  {| listedAttributes :=
       captureListed element ariaAttributes (captureListed element standardAttributes []);
     dataAttributes :=
       if existsb (fun attr => Str.startsWith (fst attr) "data-") (attrs element)
       then Some (captureData element) else None |}.

(** *** Landmarks above a node *)

Definition landmarkTags : list string :=
  ["header"; "footer"; "main"; "nav"; "aside"; "section"; "article"; "form"].

(** One entry of [contextualContainers]; [cc_node] stands for the [jsPath]
    of the ancestor. *)
Record ContextualContainer := mkContainer {
  cc_tagName : string;
  cc_id : option string;
  cc_role : option string;
  cc_node : Element
}.

(** [value || null] *)
Definition orNull (s : string) : option string :=
  if Str.nonEmpty s then Some s else None.

Definition containerOf (parent : Element) : ContextualContainer :=
  {| cc_tagName := tagName parent;
     cc_id := orNull (elementId parent);
     cc_role := match getAttribute parent "role" with
                | Some r => orNull r
                | None => None
                end;
     cc_node := parent |}.

Definition isLandmark (parent : Element) : bool :=
  (hasAttribute parent "role" || inList (tagName parent) landmarkTags)%bool.

(** The loop [while (parent && depth < maxDepth && parent !== document.body)]
    of [addContextualRelationships], with [fuel = maxDepth - depth] and
    [chain] the ancestors from [parent] upwards. *)
Fixpoint contextualContainersFrom (bodyEl : Element) (fuel : nat) (chain : list Element)
  : list ContextualContainer :=
  match fuel, chain with
  | S fuel', parent :: chain' =>
      if sameNode parent bodyEl then []
      else
        ((if isLandmark parent then [containerOf parent] else [])
         ++ contextualContainersFrom bodyEl fuel' chain')%list
  | _, _ => []
  end.

(** The list that [addContextualRelationships] stores under
    [contextualContainers] (the key is absent when the list is empty). *)
Definition contextualContainers (world : World) (element : Element)
  : list ContextualContainer :=
  contextualContainersFrom (body (document world)) 3 (ancestors element).

(** *** Structural path *)

Section JSPath.

(** [CSS.escape], and for a node its position among the preceding siblings
    of the same tag name (1 when there is none), which the loop over
    [previousElementSibling] computes. *)
Variable escape : string -> string.
Variable positionOfType : Element -> nat.

Fixpoint dedupe (l : list string) : list string :=
  match l with
  | [] => []
  | x :: l' => x :: List.filter (fun y => negb (String.eqb x y)) (dedupe l')
  end.

(** [Array.from(current.classList)]: the tokens of the [class] attribute,
    each once. *)
Definition classTokens (e : Element) : list string :=
  dedupe (Str.tokens (className e)).

Definition decimal (n : nat) : string := NilEmpty.string_of_uint (Nat.to_uint n).

Definition doubleQuote : string := String (ascii_of_nat 34) EmptyString.

(** The attribute selector [[name="value"]], the value escaped. *)
Definition quoted (name : string) (value : string) : string :=
  "[" ++ name ++ "=" ++ doubleQuote ++ escape value ++ doubleQuote ++ "]".

(** The selector of one node without [id]. *)
Definition pathSegment (current : Element) : string :=
  let selector :=
    tagName current
    ++ String.concat "" (List.map (fun c => "." ++ escape c) (classTokens current)) in
  let attrsName :=
    match getAttribute current "name" with
    | Some v => [quoted "name" v]
    | None => []
    end in
  let attrsRole :=
    match getAttribute current "role" with
    | Some v => [quoted "role" v]
    | None => []
    end in
  let attrsLabel :=
    match getAttribute current "aria-label" with
    | Some v => if Nat.ltb (String.length v) 20 then [quoted "aria-label" v] else []
    | None => []
    end in
  let attrs := (attrsName ++ attrsRole ++ attrsLabel)%list in
  let selector' :=
    if (negb (Str.includes selector "#") && negb (Str.includes selector ".")
        && Nat.eqb (List.length attrs) 0)%bool
    then
      if Nat.ltb 1 (positionOfType current)
      then selector ++ ":nth-of-type(" ++ decimal (positionOfType current) ++ ")"
      else selector
    else selector in
  selector' ++ String.concat "" attrs.

(** The array [path] when the loop ends, for the chain [current,
    current.parentElement, ...]: a node with an [id] ends the walk. *)
Fixpoint pathSegments (chain : list Element) : list string :=
  match chain with
  | [] => []
  | current :: chain' =>
      if Str.nonEmpty (elementId current)
      then [tagName current ++ "#" ++ escape (elementId current)]
      else (pathSegments chain' ++ [pathSegment current])%list
  end.

Definition getJSPathForElement (element : Element) : string :=
  if Str.nonEmpty (tagName element)
  then String.concat " > " (pathSegments (selfAndAncestors element))
  else "".

End JSPath.

(* ------------------------------------------------------------------ *)
(** ** More concrete nodes *)

(** The same node as [tinyLink] after a layout change: a wider box. *)
Definition widerLink : Element :=
  node 2 "a" [("href", "/buy"); ("onclick", "buy()"); ("id", "buy")] "Buy"
    (Some bodyNode) (mkRect 10 10 60 20) plainStyle.

(** A 10x10 icon span without text inside a 40x40 button. *)
Definition plainButton : Element :=
  node 2 "button" [] "" (Some bodyNode) (mkRect 100 100 40 40) plainStyle.

Definition iconSpan : Element :=
  node 3 "span" [("class", "icon-btn")] "" (Some plainButton) (mkRect 115 115 10 10) plainStyle.

(** An [embed] without attributes. *)
Definition bareEmbed : Element :=
  node 2 "embed" [] "" (Some bodyNode) (mkRect 10 10 300 200) plainStyle.

(** A [div] that opens a modal through two [data-*] attributes. *)
Definition toggleDiv : Element :=
  node 2 "div" [("class", "open-btn"); ("data-toggle", "modal"); ("data-target", "#m")]
    "Open" (Some bodyNode) (mkRect 10 10 80 30) plainStyle.

(** The order [areaA - areaB <= 0] on candidates. *)
Definition areaLe (a b : Candidate) : Prop := (rectArea (snd a) <= rectArea (snd b))%Q.

(** The candidates whose area is [a]. *)
Definition ofArea (a : Q) (l : list Candidate) : list Candidate :=
  List.filter (fun c => Qeq_bool (rectArea (snd c)) a) l.

(** The fraction of the candidate box that lies inside the box of an
    ancestor. *)
Definition containmentRatio (rect parentRect : DOMRect) : Q :=
  (overlapLength (rect_left rect) (rect_right rect)
     (rect_left parentRect) (rect_right parentRect)
   * overlapLength (rect_top rect) (rect_bottom rect)
       (rect_top parentRect) (rect_bottom parentRect)
   / (rect_width rect * rect_height rect))%Q.

(** The candidate box and the box of a ledger entry do not overlap. *)
Definition apart (rect : DOMRect) (processedArea : ProcessedArea) : Prop :=
  (rect_right rect <= pa_left processedArea
   \/ pa_right processedArea <= rect_left rect
   \/ rect_bottom rect <= pa_top processedArea
   \/ pa_bottom processedArea <= rect_top rect)%Q.







(** The document [doc] is the one a pass reaches through [iframeElement]:
    the main document, or the document of a same-origin frame. *)
Definition reached (world : World) (doc : Document) (iframeElement : option Element) : Prop :=
  match iframeElement with
  | None => doc = document world
  | Some f => contentDocument world f = FrameDocument doc
  end.

(** The record is built from a node of [doc] that matches the candidate
    selector, passes the four filters and is not tiny. *)
Definition ordinaryFrom (args : Args) (world : World) (rects : gmap nat DOMRect)
  (styles : gmap nat CSSStyle) (doc : Document) (iframeElement : option Element)
  (d : ElementData) : Prop :=
  exists element,
    ed_node d = Some element
    /\ inIframe d = iframeElement
    /\ candidateSelector element = true
    /\ passesFilters args world rects styles doc iframeElement element = true
    /\ isTiny (cachedRect rects element) = false.

(** The record stands for a hidden file input of [doc] and carries the tag
    and the box of an ancestor below the body that is visible and topmost. *)
Definition proxyFrom (world : World) (rects : gmap nat DOMRect)
  (styles : gmap nat CSSStyle) (doc : Document) (iframeElement : option Element)
  (d : ElementData) : Prop :=
  exists fileInput visibleParent,
    ed_node d = Some fileInput
    /\ inIframe d = iframeElement
    /\ hiddenFileInputSelector fileInput = true
    /\ In visibleParent (ancestors fileInput)
    /\ sameNode visibleParent (body doc) = false
    /\ isElementVisible styles visibleParent = true
    /\ isTopElementWithIframeSupport world rects doc visibleParent iframeElement = true
    /\ visibleParentTag d = Some (tagName visibleParent)
    /\ boundingRect d = roundRect (cachedRect rects visibleParent).

(** A file input hidden by its class inside a visible label. *)
Definition uploadLabel : Element :=
  node 2 "label" [] "Upload" (Some bodyNode) (mkRect 10 10 120 30) plainStyle.

Definition hiddenUpload : Element :=
  node 3 "input" [("type", "file"); ("class", "hidden")] "" (Some uploadLabel)
    (mkRect 0 0 0 0) plainStyle.

Definition uploadWorld : World :=
  windowOn (page [uploadLabel; hiddenUpload] [uploadLabel]) noFrames.

(** What a pass guarantees of a record added for [doc]. *)
Definition docSound (args : Args) (world : World) (rects : gmap nat DOMRect)
  (styles : gmap nat CSSStyle) (doc : Document) (iframeElement : option Element)
  (d : ElementData) : Prop :=
  (isOrdinary d = true -> ordinaryFrom args world rects styles doc iframeElement d)
  /\ (isHiddenFileInput d = true -> proxyFrom world rects styles doc iframeElement d).

Definition sound (args : Args) (world : World) (rects : gmap nat DOMRect)
  (styles : gmap nat CSSStyle) (d : ElementData) : Prop :=
  exists doc iframeElement,
    reached world doc iframeElement
    /\ docSound args world rects styles doc iframeElement d.

(** The tests that [findScrollableElements] applies to a node before it
    looks at the ledger. *)
Definition scrollRegionShown (args : Args) (world : World) (rects : gmap nat DOMRect)
  (styles : gmap nat CSSStyle) (element : Element) : Prop :=
  isInViewport args world rects element = true
  /\ isElementVisible styles element = true
  /\ 10 <= clientWidth element
  /\ 10 <= clientHeight element
  /\ canScroll styles element = true
  /\ isTopElement world rects element = true
  /\ (elementHasVerticalScrollbar styles element = true ->
      1 <= offsetWidth element - clientWidth element)
  /\ (elementHasHorizontalScrollbar styles element = true ->
      1 <= offsetHeight element - clientHeight element).

(** The condition under which [findMainBrowserScrollbars] reports the
    scrollbar of one axis of the window. *)
Definition mainScrollbarShown (world : World) (vertical : bool) : bool :=
  if vertical
  then ((scrollHeight (documentElement (document world)) >? innerHeight world)
        && (0 <=? innerWidth world - clientWidth (documentElement (document world))))%bool
  else ((scrollWidth (documentElement (document world)) >? innerWidth world)
        && (0 <=? innerHeight world - clientHeight (documentElement (document world))))%bool.
(* ================================================================== *)
(** * Properties *)

(** ** The string functions on samples *)

Example trim_sample : Str.trim "  Add to cart  " = "Add to cart".
Proof. reflexivity. Qed.

Example tokens_sample : Str.tokens " btn  nav-btn primary" = ["btn"; "nav-btn"; "primary"].
Proof. reflexivity. Qed.

Example includes_sample :
  Str.includes (Str.toLowerCase "Accept-Cookies") "cookie" = true
  /\ Str.includes "toolbar" "btn" = false.
Proof. split; reflexivity. Qed.

Example parseInt_sample :
  Str.parseInt "10" = Some 10 /\ Str.parseInt " -3px" = Some (-3)
  /\ Str.parseInt "auto" = None.
Proof. repeat split; reflexivity. Qed.

Example mathRound_sample : mathRound (5 # 2) = 3 /\ mathRound (-(5 # 2)) = -2.
Proof. split; reflexivity. Qed.

(** ** Comparisons on rationals *)

Lemma Qltb_lt (x y : Q) : Qltb x y = true <-> (x < y)%Q.
Proof.
  unfold Qltb. rewrite negb_true_iff, <- not_true_iff_false, Qle_bool_iff.
  split; [apply Qnot_le_lt | apply Qlt_not_le].
Qed.

Lemma Qltb_ge (x y : Q) : Qltb x y = false <-> (y <= x)%Q.
Proof.
  unfold Qltb. rewrite negb_false_iff. apply Qle_bool_iff.
Qed.

Lemma Qleb_le (x y : Q) : Qleb x y = true <-> (x <= y)%Q.
Proof. apply Qle_bool_iff. Qed.

Lemma Qleb_gt (x y : Q) : Qleb x y = false <-> (y < x)%Q.
Proof.
  unfold Qleb. rewrite <- not_true_iff_false, Qle_bool_iff.
  split; [apply Qnot_le_lt | apply Qlt_not_le].
Qed.

Lemma Qgtb_gt (x y : Q) : Qgtb x y = true <-> (y < x)%Q.
Proof. apply Qltb_lt. Qed.

Lemma Qgeb_ge (x y : Q) : Qgeb x y = true <-> (y <= x)%Q.
Proof. apply Qleb_le. Qed.

(** ** The cache *)

(** The threaded getters answer what [cachedRect] and [cachedStyle] read. *)
Lemma getCachedBoundingRect_answer (c : DomCache) (e : Element) :
  fst (getCachedBoundingRect c e) = cachedRect (boundingRects c) e.
Proof.
  unfold getCachedBoundingRect, cachedRect.
  destruct (boundingRects c !! nodeId e); reflexivity.
Qed.

Lemma getCachedComputedStyle_answer (c : DomCache) (e : Element) :
  fst (getCachedComputedStyle c e) = cachedStyle (computedStyles c) e.
Proof.
  unfold getCachedComputedStyle, cachedStyle.
  destruct (computedStyles c !! nodeId e); reflexivity.
Qed.

(** Storing an answer does not change any later answer, as long as a node
    identity stands for one node of an unchanged tree. *)
Lemma cachedRect_stable (c : DomCache) (e e' : Element) :
  (nodeId e' = nodeId e -> getBoundingClientRect e' = getBoundingClientRect e) ->
  cachedRect (boundingRects (snd (getCachedBoundingRect c e))) e'
  = cachedRect (boundingRects c) e'.
Proof.
  intros Hsame. unfold getCachedBoundingRect, cachedRect.
  destruct (boundingRects c !! nodeId e) eqn:He; simpl; [reflexivity|].
  destruct (decide (nodeId e' = nodeId e)) as [Heq|Hne].
  - rewrite Heq, lookup_insert_eq, He. symmetry. auto.
  - rewrite lookup_insert_ne by congruence. reflexivity.
Qed.

Lemma cachedStyle_stable (c : DomCache) (e e' : Element) :
  (nodeId e' = nodeId e -> getComputedStyle e' = getComputedStyle e) ->
  cachedStyle (computedStyles (snd (getCachedComputedStyle c e))) e'
  = cachedStyle (computedStyles c) e'.
Proof.
  intros Hsame. unfold getCachedComputedStyle, cachedStyle.
  destruct (computedStyles c !! nodeId e) eqn:He; simpl; [reflexivity|].
  destruct (decide (nodeId e' = nodeId e)) as [Heq|Hne].
  - rewrite Heq, lookup_insert_eq, He. symmetry. auto.
  - rewrite lookup_insert_ne by congruence. reflexivity.
Qed.

(** Both getters leave the window size and the timestamp alone. *)
Lemma getCachedBoundingRect_keeps_clock (c : DomCache) (e : Element) :
  lastRunTimestamp (snd (getCachedBoundingRect c e)) = lastRunTimestamp c
  /\ previousWindowSize (snd (getCachedBoundingRect c e)) = previousWindowSize c.
Proof.
  unfold getCachedBoundingRect.
  destruct (boundingRects c !! nodeId e); simpl; auto.
Qed.

Lemma clearCache_flag (force : bool) (win : WindowSize) (now : Z) (c : DomCache) :
  fst (clearCache force win now c) = true <-> clearDue force win now c.
Proof.
  unfold clearCache, clearDue.
  destruct force; simpl; [tauto|].
  destruct (Z.eqb_spec (ws_width win) (ws_width (previousWindowSize c)));
    simpl; [|tauto].
  destruct (Z.eqb_spec (ws_height win) (ws_height (previousWindowSize c)));
    simpl; [|tauto].
  destruct (Z.gtb_spec (now - lastRunTimestamp c) 30000); simpl.
  - split; [intros _; do 3 right; lia | reflexivity].
  - split; [discriminate|]. intros [?|[?|[?|?]]]; try discriminate; try contradiction; lia.
Qed.

(** C5, as amended: [clearCache(force)] resets both maps (and returns
    [true]) exactly when [force] is set, or the window width or height
    differs from the recorded one, or more than 30000 ms have passed since
    [lastRunTimestamp], the time of the previous call; in every other case it
    leaves both maps and the recorded size unchanged.  In both cases
    [lastRunTimestamp] becomes the current time. *)
Theorem clearCache_resets_iff (force : bool) (win : WindowSize) (now : Z) (c : DomCache) :
  (fst (clearCache force win now c) = true <-> clearDue force win now c)
  /\ (fst (clearCache force win now c) = true ->
      snd (clearCache force win now c)
      = {| boundingRects := ∅; computedStyles := ∅;
           previousWindowSize := win; lastRunTimestamp := now |})
  /\ (fst (clearCache force win now c) = false ->
      snd (clearCache force win now c)
      = {| boundingRects := boundingRects c; computedStyles := computedStyles c;
           previousWindowSize := previousWindowSize c; lastRunTimestamp := now |}).
Proof.
  split; [apply clearCache_flag|].
  unfold clearCache.
  destruct (force || _ || _ || _)%bool; simpl; split; intros H;
    first [reflexivity | discriminate H].
Qed.

Lemma clearCache_resets_iff_witness :
  fst (clearCache false (mkWindowSize 1024 768) 30001 cacheClearedAt0) = true
  /\ boundingRects (snd (clearCache false (mkWindowSize 1024 768) 30001 cacheClearedAt0)) = ∅.
Proof.
  destruct (clearCache_resets_iff false (mkWindowSize 1024 768) 30001 cacheClearedAt0)
    as (Hflag & Hreset & _).
  assert (Hdue : fst (clearCache false (mkWindowSize 1024 768) 30001 cacheClearedAt0) = true).
  { apply Hflag. do 3 right. vm_compute. reflexivity. }
  split; [exact Hdue|]. rewrite (Hreset Hdue). reflexivity.
Defined.

(** Exactly 30000 ms after a clear, with the same window and no [force], a
    stored box survives the call. *)
Lemma clearCache_keeps_at_30000 :
  ~ clearCache_as_specified false (mkWindowSize 1024 768) 30000 cacheClearedAt0.
Proof.
  unfold clearCache_as_specified. intros [_ H].
  destruct H as [Hrects _].
  - do 3 right. vm_compute. discriminate.
  - apply (f_equal (fun m => m !! nodeId tinyLink)) in Hrects.
    revert Hrects. unfold cacheClearedAt0, clearCache, getCachedBoundingRect. simpl.
    rewrite lookup_empty. simpl. rewrite lookup_insert_eq. discriminate.
Qed.

(** The timestamp is that of the previous call, not of the previous clear: a
    call that keeps the cache postpones the next clear. *)
Example clearCache_refresh_postpones :
  let c1 := snd (clearCache false (mkWindowSize 1024 768) 20000 cacheClearedAt0) in
  fst (clearCache false (mkWindowSize 1024 768) 20000 cacheClearedAt0) = false
  /\ fst (clearCache false (mkWindowSize 1024 768) 45000 c1) = false.
Proof. split; reflexivity. Qed.

(** The cache that a pass starts from holds nothing, whatever the clock
    says. *)
Lemma clearCache_fresh (win : WindowSize) (created now : Z) :
  boundingRects (snd (clearCache false win now (newDomCache win created))) = ∅
  /\ computedStyles (snd (clearCache false win now (newDomCache win created))) = ∅.
Proof.
  unfold clearCache, newDomCache.
  destruct (false || _ || _ || _)%bool; simpl; auto.
Qed.

(** ** Interactivity *)

(** C7: an element with [role="presentation"] is not interactive, whatever
    its cursor, tag, classes, handlers, ARIA state, draggable or
    contenteditable marks say. *)
Theorem presentation_not_interactive (styles : gmap nat CSSStyle) (element : Element) :
  getAttribute element "role" = Some "presentation" ->
  isInteractiveElement styles element = false.
Proof.
  intros Hrole. unfold isInteractiveElement, attrIs. rewrite Hrole. reflexivity.
Qed.

Lemma presentation_not_interactive_witness :
  doesElementHaveInteractivePointer ∅ presentationButton = true
  /\ hasInteractiveRole presentationButton = true
  /\ hasClickHandler presentationButton = true
  /\ hasAriaProps presentationButton = true
  /\ isDraggable presentationButton = true
  /\ isContentEditableLike presentationButton = true
  /\ isInteractiveElement ∅ presentationButton = false.
Proof.
  repeat (split; [reflexivity|]).
  apply (presentation_not_interactive ∅ presentationButton). reflexivity.
Defined.

(** ** Emission: the result only grows, in step with the counter *)

Lemma Emits_same (P : ElementData -> Prop) (st st' : PassState) :
  result st' = result st ->
  st_highlightIndex st' = st_highlightIndex st ->
  Emits P st st'.
Proof.
  intros Hr Hi. exists []. rewrite app_nil_r. simpl.
  rewrite Nat.add_0_r. auto.
Qed.

Lemma Emits_refl (P : ElementData -> Prop) (st : PassState) : Emits P st st.
Proof. apply Emits_same; reflexivity. Qed.

Lemma Emits_trans (P : ElementData -> Prop) (st1 st2 st3 : PassState) :
  Emits P st1 st2 -> Emits P st2 st3 -> Emits P st1 st3.
Proof.
  intros (l1 & Hr1 & Hi1 & Hm1 & Hp1) (l2 & Hr2 & Hi2 & Hm2 & Hp2).
  exists (l1 ++ l2)%list. repeat split.
  - rewrite Hr2, Hr1, app_assoc. reflexivity.
  - rewrite Hi2, Hi1, length_app. lia.
  - rewrite map_app, length_app, seq_app, Hm1, Hm2, Hi1. reflexivity.
  - apply Forall_app; auto.
Qed.

Lemma Emits_mono (P Q : ElementData -> Prop) (st st' : PassState) :
  (forall d, P d -> Q d) -> Emits P st st' -> Emits Q st st'.
Proof.
  intros HPQ (l & Hr & Hi & Hm & Hp). exists l. repeat split; auto.
  eapply Forall_impl; eauto.
Qed.

Lemma Emits_push (args : Args) (P : ElementData -> Prop)
  (data : nat -> ElementData) (st : PassState) :
  highlightIndex (data (st_highlightIndex st)) = st_highlightIndex st ->
  P (data (st_highlightIndex st)) ->
  Emits P st (pushResult args data st).
Proof.
  intros Hi Hp. exists [data (st_highlightIndex st)]. simpl.
  repeat split; auto; try lia.
  rewrite Hi. reflexivity.
Qed.

Lemma Emits_setAreas (P : ElementData -> Prop) (areas : list ProcessedArea)
  (st : PassState) : Emits P st (setAreas areas st).
Proof. apply Emits_same; reflexivity. Qed.

Lemma Emits_fold_left {A : Type} (P : ElementData -> Prop)
  (f : PassState -> A -> PassState) (xs : list A) :
  (forall st x, In x xs -> Emits P st (f st x)) ->
  forall st, Emits P st (List.fold_left f xs st).
Proof.
  induction xs as [|x xs IH]; intros Hf st; simpl.
  - apply Emits_refl.
  - eapply Emits_trans.
    + apply Hf. left. reflexivity.
    + apply IH. intros st' y Hy. apply Hf. right. exact Hy.
Qed.

(** The decorations keep the index of a record. *)
Lemma highlightIndex_withIframe (f : option Element) (d : ElementData) :
  highlightIndex (withIframe f d) = highlightIndex d.
Proof. destruct f; reflexivity. Qed.

Section PassProperties.

Variable args : Args.
Variable world : World.
Variable rects : gmap nat DOMRect.
Variable styles : gmap nat CSSStyle.

(** ** The duplicate test *)

Lemma isDuplicate_tiny (element : Element) (rect : DOMRect) (areas : list ProcessedArea) :
  isTiny rect = true ->
  isDuplicateInteractiveElement rects styles element rect areas = (true, areas).
Proof.
  intros Htiny. unfold isDuplicateInteractiveElement. rewrite Htiny. reflexivity.
Qed.

Lemma isDuplicate_kept_not_tiny (element : Element) (rect : DOMRect)
  (areas : list ProcessedArea) :
  fst (isDuplicateInteractiveElement rects styles element rect areas) = false ->
  isTiny rect = false.
Proof.
  unfold isDuplicateInteractiveElement.
  destruct (isTiny rect); [discriminate | reflexivity].
Qed.

(** ** What each phase emits *)

Lemma processCandidates_emits (decorate : ElementData -> ElementData)
  (P : ElementData -> Prop) (candidates : list Candidate) :
  (forall d, highlightIndex (decorate d) = highlightIndex d) ->
  (forall element rect index,
      In (element, rect) candidates -> isTiny rect = false ->
      P (decorate (createElementData element index))) ->
  forall st, Emits P st (processCandidates args rects styles decorate candidates st).
Proof.
  intros Hdec. induction candidates as [|[element rect] candidates IH];
    intros HP st; simpl.
  - apply Emits_refl.
  - destruct (isDuplicateInteractiveElement rects styles element rect
                (processedElementAreas st)) as [dup areas] eqn:Hdup.
    assert (IH' : forall st', Emits P st'
                    (processCandidates args rects styles decorate candidates st')).
    { apply IH. intros e r i Hin. apply HP. right. exact Hin. }
    destruct dup.
    + eapply Emits_trans; [apply Emits_setAreas | apply IH'].
    + eapply Emits_trans; [|apply IH'].
      eapply Emits_trans; [apply (Emits_setAreas P areas)|].
      apply Emits_push.
      * rewrite Hdec. reflexivity.
      * apply (HP element rect); [left; reflexivity|].
        apply (isDuplicate_kept_not_tiny element rect (processedElementAreas st)).
        rewrite Hdup. reflexivity.
Qed.

Lemma In_insertByArea (c x : Candidate) (l : list Candidate) :
  In x (insertByArea c l) <-> x = c \/ In x l.
Proof.
  induction l as [|c' l IH]; simpl.
  - intuition.
  - destruct (Qleb _ _); simpl; [intuition | rewrite IH; intuition].
Qed.

Lemma In_sortByArea (x : Candidate) (l : list Candidate) :
  In x (sortByArea l) <-> In x l.
Proof.
  induction l as [|c l IH]; simpl; [tauto|].
  rewrite In_insertByArea, IH. intuition.
Qed.

Lemma In_collectCandidates (doc : Document) (iframeElement : option Element)
  (potential : list Element) (element : Element) (rect : DOMRect) :
  In (element, rect) (collectCandidates args world rects styles doc iframeElement potential)
  <-> In element potential
      /\ passesFilters args world rects styles doc iframeElement element = true
      /\ rect = cachedRect rects element.
Proof.
  unfold collectCandidates. rewrite in_map_iff. split.
  - intros (e & Heq & Hin). inversion Heq; subst.
    apply filter_In in Hin. tauto.
  - intros (Hin & Hpass & ->). exists element. split; [reflexivity|].
    apply filter_In. tauto.
Qed.

Lemma processHiddenFileInputs_emits (doc : Document) (iframeElement : option Element)
  (st : PassState) :
  Emits (DocEmitted rects iframeElement) st
    (processHiddenFileInputs args world rects styles doc iframeElement st).
Proof.
  unfold processHiddenFileInputs. apply Emits_fold_left.
  intros st' fileInput _. unfold processHiddenFileInput.
  destruct (findVisibleParent _ _ _ _ _ _) as [visibleParent|].
  - apply Emits_push.
    + rewrite highlightIndex_withIframe. reflexivity.
    + apply de_hidden.
  - apply Emits_refl.
Qed.

Lemma processShadowDOMElements_emits (doc : Document) (iframeElement : option Element)
  (st : PassState) :
  Emits (DocEmitted rects iframeElement) st
    (processShadowDOMElements args world rects styles doc iframeElement st).
Proof.
  unfold processShadowDOMElements. apply Emits_fold_left.
  intros st' host _. unfold processShadowHost.
  destruct (shadowRoot host) as [shadowAll|]; [|apply Emits_refl].
  apply processCandidates_emits.
  - intros d. rewrite highlightIndex_withIframe. reflexivity.
  - intros element rect index Hin Htiny.
    apply In_sortByArea, In_collectCandidates in Hin.
    destruct Hin as (_ & _ & ->). apply de_shadow. exact Htiny.
Qed.

Lemma processElementsInDocument_emits (doc : Document) (iframeElement : option Element)
  (st : PassState) :
  Emits (DocEmitted rects iframeElement) st
    (processElementsInDocument args world rects styles doc iframeElement st).
Proof.
  unfold processElementsInDocument.
  eapply Emits_trans; [|apply processShadowDOMElements_emits].
  eapply Emits_trans; [|apply processHiddenFileInputs_emits].
  apply processCandidates_emits.
  - apply highlightIndex_withIframe.
  - intros element rect index Hin Htiny.
    apply In_sortByArea, In_collectCandidates in Hin.
    destruct Hin as (_ & _ & ->). apply de_candidate. exact Htiny.
Qed.

Lemma processIframe_emits_frame (st : PassState) (iframe : Element) :
  Emits
    (fun d =>
       (exists iframeDoc,
           contentDocument world iframe = FrameDocument iframeDoc
           /\ DocEmitted rects (Some iframe) d)
       \/ (contentDocument world iframe = FrameSecurityError
           /\ isInteractiveElement styles iframe = true
           /\ exists index, d = asCrossDomainIframe (createElementData iframe index)))
    st (processIframe args world rects styles st iframe).
Proof.
  unfold processIframe.
  destruct (negb (isInViewport _ _ _ _)); [apply Emits_refl|].
  destruct (negb (isElementVisible _ _)); [apply Emits_refl|].
  destruct (contentDocument world iframe) as [iframeDoc| |] eqn:Hdoc.
  - eapply Emits_mono; [|apply processElementsInDocument_emits].
    intros d Hd. left. eauto.
  - apply Emits_refl.
  - destruct (isInteractiveElement styles iframe) eqn:Hint; [|apply Emits_refl].
    apply Emits_push; [reflexivity|]. right. eauto.
Qed.

Lemma processIframe_emits (st : PassState) (iframe : Element) :
  Emits (Emitted world rects styles) st
    (processIframe args world rects styles st iframe).
Proof.
  eapply Emits_mono; [|apply processIframe_emits_frame].
  intros d [(iframeDoc & Hdoc & Hd) | (Hdoc & Hint & index & ->)].
  - eapply em_frame; eauto.
  - apply em_crossDomain; assumption.
Qed.

Lemma processScrollable_emits_region (st : PassState) (element : Element) :
  Emits (fun d => exists index, d = scrollRegionData rects styles element index)
    st (processScrollable args world rects styles st element).
Proof.
  unfold processScrollable.
  repeat match goal with
         | |- Emits _ ?s ?s => apply Emits_refl
         | |- Emits _ _ (if ?b then _ else _) => destruct b
         end.
  eapply Emits_trans; [apply Emits_setAreas|].
  apply Emits_push; [reflexivity|]. eauto.
Qed.

Lemma processScrollable_emits (st : PassState) (element : Element) :
  In element (allElements (document world)) ->
  Emits (Emitted world rects styles) st
    (processScrollable args world rects styles st element).
Proof.
  intros Hin. eapply Emits_mono; [|apply processScrollable_emits_region].
  intros d [index ->]. apply em_scrollRegion. exact Hin.
Qed.


Lemma processIframe_emits_noScroll (st : PassState) (iframe : Element) :
  Emits (fun d => scrollData d = None) st
    (processIframe args world rects styles st iframe).
Proof.
  eapply Emits_mono; [|apply processIframe_emits_frame].
  intros d [(iframeDoc & _ & Hd) | (_ & _ & index & ->)]; [|reflexivity].
  destruct Hd as [e i _ | h e i _ | fi vp i]; reflexivity.
Qed.

Lemma findMainBrowserScrollbars_emits_bar (st : PassState) :
  Emits (fun d => exists vertical index, d = mainScrollbarData world vertical index)
    st (findMainBrowserScrollbars args world st).
Proof.
  unfold findMainBrowserScrollbars. cbv zeta.
  match goal with
  | |- Emits ?P _ (if _ then pushResult _ _ ?s else _) =>
      assert (H1 : Emits P st s)
  end.
  { destruct (_ && _)%bool; [|apply Emits_refl].
    apply Emits_push; [reflexivity | eauto]. }
  eapply Emits_trans; [exact H1|].
  match goal with
  | |- Emits _ _ (if ?b then _ else _) => destruct b; [|apply Emits_refl]
  end.
  apply Emits_push; [reflexivity | eauto].
Qed.

Lemma findMainBrowserScrollbars_emits (st : PassState) :
  Emits (Emitted world rects styles) st (findMainBrowserScrollbars args world st).
Proof.
  eapply Emits_mono; [|apply findMainBrowserScrollbars_emits_bar].
  intros d (vertical & index & ->). apply em_mainScrollbar.
Qed.

Lemma runPass_emits :
  Emits (Emitted world rects styles) initialState (runPass args world rects styles).
Proof.
  unfold runPass.
  eapply Emits_trans; [|apply findMainBrowserScrollbars_emits].
  eapply Emits_trans;
    [|apply Emits_fold_left; intros; apply processScrollable_emits; assumption].
  eapply Emits_trans; [|apply Emits_fold_left; intros; apply processIframe_emits].
  eapply Emits_mono; [|apply processElementsInDocument_emits].
  intros d Hd. apply em_document. exact Hd.
Qed.

(** C6: in the result of a pass the [highlightIndex] values, read in the
    order of the list, are 0, 1, ..., n-1: every record (ordinary element,
    cross-origin frame placeholder, hidden-file-input proxy, scroll region,
    main scrollbar) carries the value of the counter at its discovery. *)
Theorem highlightIndex_contiguous :
  List.map highlightIndex (findViewportInteractiveElements args world rects styles)
  = seq 0 (length (findViewportInteractiveElements args world rects styles)).
Proof.
  unfold findViewportInteractiveElements.
  destruct runPass_emits as (l & Hr & _ & Hm & _).
  rewrite Hr. simpl in *. exact Hm.
Qed.

Lemma Emits_keeps (P : ElementData -> Prop) (st st' : PassState) (d : ElementData) :
  Emits P st st' -> In d (result st) -> In d (result st').
Proof.
  intros (l & Hr & _) Hin. rewrite Hr. apply in_or_app. left. exact Hin.
Qed.

Lemma isTiny_spec (rect : DOMRect) :
  isTiny rect = true <-> (rect_width rect < 5 \/ rect_height rect < 5)%Q.
Proof.
  unfold isTiny. rewrite orb_true_iff, !Qltb_lt. reflexivity.
Qed.

(** C10: a candidate whose box is narrower or lower than 5 pixels is
    reported as a duplicate at the first test of
    [isDuplicateInteractiveElement], with the ledger untouched and no score
    involved; no ordinary record of the result is built from it. *)
Theorem tiny_candidate_never_emitted (element : Element) :
  (rect_width (cachedRect rects element) < 5
   \/ rect_height (cachedRect rects element) < 5)%Q ->
  (forall areas,
      isDuplicateInteractiveElement rects styles element (cachedRect rects element) areas
      = (true, areas))
  /\ (forall d,
        In d (findViewportInteractiveElements args world rects styles) ->
        isOrdinary d = true -> ed_node d <> Some element).
Proof.
  intros Hsmall. apply isTiny_spec in Hsmall. split.
  - intros areas. apply isDuplicate_tiny. exact Hsmall.
  - intros d Hin Hord Hnode.
    destruct runPass_emits as (l & Hr & _ & _ & Hall).
    unfold findViewportInteractiveElements in Hin. rewrite Hr in Hin. simpl in Hin.
    rewrite List.Forall_forall in Hall. specialize (Hall d Hin).
    assert (Hdoc : forall f, DocEmitted rects f d -> False).
    { intros f Hd. destruct Hd as [e i Ht | h e i Ht | fi vp i];
        destruct f; simpl in *; try discriminate Hord;
        injection Hnode as ->; congruence. }
    destruct Hall as [d Hd | f fd d _ Hd | f i _ _ | e i _ | v i];
      try (eapply Hdoc; eassumption); simpl in *; discriminate.
Qed.

(** ** The fast path *)

Lemma isDuplicate_high_priority (element : Element) (rect : DOMRect)
  (areas : list ProcessedArea) :
  isTiny rect = false ->
  (12 <= getElementPriority rects styles element)%Q ->
  isDuplicateInteractiveElement rects styles element rect areas
  = (false,
     (areas ++ [areaOfRect element rect
                  (Some (getElementPriority rects styles element))
                  (Some (rect_width rect * rect_height rect)%Q) false])%list).
Proof.
  intros Htiny Hscore. unfold isDuplicateInteractiveElement. rewrite Htiny.
  assert (Hhigh : isHighPriorityElement rects styles element rect = true).
  { unfold isHighPriorityElement. apply Qgeb_ge in Hscore. rewrite Hscore. reflexivity. }
  rewrite Hhigh. reflexivity.
Qed.

(** A candidate that the duplicate test keeps whatever the ledger holds gets
    its record in the second pass. *)
Lemma processCandidates_keeps (decorate : ElementData -> ElementData)
  (element : Element) (rect : DOMRect) (candidates : list Candidate) :
  (forall d, highlightIndex (decorate d) = highlightIndex d) ->
  (forall areas, fst (isDuplicateInteractiveElement rects styles element rect areas) = false) ->
  In (element, rect) candidates ->
  forall st, exists index,
    In (decorate (createElementData element index))
      (result (processCandidates args rects styles decorate candidates st)).
Proof.
  intros Hdec Hkept. induction candidates as [|[e r] candidates IH]; intros Hin st.
  - destruct Hin.
  - simpl.
    destruct (isDuplicateInteractiveElement rects styles e r (processedElementAreas st))
      as [dup areas] eqn:Hdup.
    destruct Hin as [Heq|Hin].
    + injection Heq as -> ->.
      specialize (Hkept (processedElementAreas st)). rewrite Hdup in Hkept.
      simpl in Hkept. subst dup.
      exists (st_highlightIndex st).
      eapply Emits_keeps.
      * apply (processCandidates_emits decorate (fun _ => True)); auto.
      * simpl. apply in_or_app. right. left. reflexivity.
    + apply IH. exact Hin.
Qed.

(** C1, as amended: a candidate whose box is at least 5 by 5 pixels and whose
    score is at least 12 is never a duplicate: [isDuplicateInteractiveElement]
    returns [false] and only appends the candidate to the ledger, with its
    score and area.  Its record is therefore in the result of every second
    pass it takes part in (main document, frame document or shadow root),
    whatever its ancestors are; in particular a node of the main document
    that the selector matches and that passes the four filters has its record
    in the result of the pass. *)
Theorem high_priority_kept (element : Element) :
  (5 <= rect_width (cachedRect rects element))%Q ->
  (5 <= rect_height (cachedRect rects element))%Q ->
  (12 <= getElementPriority rects styles element)%Q ->
  (forall areas,
      isDuplicateInteractiveElement rects styles element (cachedRect rects element) areas
      = (false,
         (areas ++ [areaOfRect element (cachedRect rects element)
                      (Some (getElementPriority rects styles element))
                      (Some (rect_width (cachedRect rects element)
                             * rect_height (cachedRect rects element))%Q) false])%list))
  /\ (forall decorate candidates st,
        (forall d, highlightIndex (decorate d) = highlightIndex d) ->
        In (element, cachedRect rects element) candidates ->
        exists index,
          In (decorate (createElementData element index))
            (result (processCandidates args rects styles decorate candidates st)))
  /\ (In element (allElements (document world)) ->
      candidateSelector element = true ->
      passesFilters args world rects styles (document world) None element = true ->
      exists index,
        In (createElementData element index)
          (findViewportInteractiveElements args world rects styles)).
Proof.
  intros Hw Hh Hscore.
  assert (Htiny : isTiny (cachedRect rects element) = false).
  { unfold isTiny. apply orb_false_iff. split; apply Qltb_ge; assumption. }
  assert (Hkept : forall areas,
             fst (isDuplicateInteractiveElement rects styles element
                    (cachedRect rects element) areas) = false).
  { intros areas. rewrite isDuplicate_high_priority by assumption. reflexivity. }
  split; [|split].
  - intros areas. apply isDuplicate_high_priority; assumption.
  - intros decorate candidates st Hdec Hin.
    apply (processCandidates_keeps decorate element (cachedRect rects element));
      assumption.
  - intros Hin Hsel Hpass.
    unfold findViewportInteractiveElements, runPass.
    destruct (processCandidates_keeps (withIframe None) element (cachedRect rects element)
                (sortByArea (collectCandidates args world rects styles (document world) None
                               (querySelectorAll candidateSelector (document world)))))
      with (st := initialState) as [index Hindex].
    + reflexivity.
    + exact Hkept.
    + apply In_sortByArea, In_collectCandidates. repeat split; auto.
      apply filter_In. auto.
    + exists index.
      eapply Emits_keeps; [apply findMainBrowserScrollbars_emits|].
      eapply Emits_keeps;
        [apply Emits_fold_left; intros; apply processScrollable_emits; assumption|].
      eapply Emits_keeps;
        [apply Emits_fold_left; intros; apply processIframe_emits|].
      unfold processElementsInDocument.
      eapply Emits_keeps; [apply processShadowDOMElements_emits|].
      eapply Emits_keeps; [apply processHiddenFileInputs_emits|].
      exact Hindex.
Qed.

(** ** The viewport filter *)


(** ** Overlapping candidates *)








(** ** Counting the records of one node *)

Lemma sameNode_true (a b : Element) : sameNode a b = true <-> nodeId a = nodeId b.
Proof. apply Nat.eqb_eq. Qed.

Lemma sameNode_false (a b : Element) : sameNode a b = false <-> nodeId a <> nodeId b.
Proof. apply Nat.eqb_neq. Qed.

Lemma countIf_app {A : Type} (p : A -> bool) (l1 l2 : list A) :
  countIf p (l1 ++ l2) = (countIf p l1 + countIf p l2)%nat.
Proof. unfold countIf. rewrite List.filter_app, List.length_app. reflexivity. Qed.

Lemma countIf_none {A : Type} (p : A -> bool) (l : list A) :
  Forall (fun x => p x = false) l -> countIf p l = 0%nat.
Proof.
  unfold countIf. induction 1 as [|x l Hx _ IH]; simpl; [reflexivity|].
  rewrite Hx. exact IH.
Qed.

Lemma Emits_count_same (P : ElementData -> Prop) (p : ElementData -> bool)
  (st st' : PassState) :
  Emits P st st' ->
  (forall d, P d -> p d = false) ->
  countIf p (result st') = countIf p (result st).
Proof.
  intros (l & Hr & _ & _ & Hall) Hp. rewrite Hr, countIf_app, (countIf_none p l).
  - lia.
  - eapply Forall_impl; eauto.
Qed.


Lemma NoDup_map_inj {A B : Type} (f : A -> B) (l : list A) (a b : A) :
  List.NoDup (List.map f l) -> In a l -> In b l -> f a = f b -> a = b.
Proof.
  induction l as [|x l IH]; simpl; intros Hnd Ha Hb Hf; [destruct Ha|].
  inversion Hnd as [|? ? Hnotin Hnd']; subst.
  destruct Ha as [->|Ha], Hb as [->|Hb]; auto.
  - exfalso. apply Hnotin. rewrite Hf. apply in_map. exact Hb.
  - exfalso. apply Hnotin. rewrite <- Hf. apply in_map. exact Ha.
Qed.

Lemma fold_count_same (step : PassState -> Element -> PassState)
  (p : ElementData -> bool) (target : Element) (l : list Element) :
  (forall st other, In other l -> nodeId other <> nodeId target ->
                    countIf p (result (step st other)) = countIf p (result st)) ->
  ~ In (nodeId target) (List.map nodeId l) ->
  forall st, countIf p (result (List.fold_left step l st)) = countIf p (result st).
Proof.
  induction l as [|x l IH]; intros Hstep Hnotin st; simpl; [reflexivity|].
  rewrite IH.
  - apply Hstep; [left; reflexivity|]. intros Heq. apply Hnotin. left. exact Heq.
  - intros st' other Hin. apply Hstep. right. exact Hin.
  - intros Hin. apply Hnotin. right. exact Hin.
Qed.

(** In a loop over distinct nodes, the only round that adds a record of
    [target] is the round of [target]. *)
Lemma fold_count_once (step : PassState -> Element -> PassState)
  (p : ElementData -> bool) (I : PassState -> Prop) (target : Element)
  (l : list Element) :
  List.NoDup (List.map nodeId l) ->
  In target l ->
  (forall st other, In other l -> nodeId other <> nodeId target ->
                    countIf p (result (step st other)) = countIf p (result st)) ->
  (forall st other, In other l -> nodeId other <> nodeId target ->
                    I st -> I (step st other)) ->
  (forall st, I st -> countIf p (result (step st target)) = S (countIf p (result st))) ->
  forall st, I st ->
    countIf p (result (List.fold_left step l st)) = S (countIf p (result st)).
Proof.
  induction l as [|x l IH]; intros Hnd Hin Hother Hinv Htarget st HI; [destruct Hin|].
  inversion Hnd as [|? ? Hnotin Hnd']; subst. simpl.
  destruct Hin as [->|Hin].
  - rewrite (fold_count_same step p target l); auto.
    intros st' other Hin'. apply Hother. right. exact Hin'.
  - assert (Hne : nodeId x <> nodeId target).
    { intros Heq. apply Hnotin. rewrite Heq. apply in_map. exact Hin. }
    rewrite IH; auto.
    + f_equal. apply Hother; [left; reflexivity | exact Hne].
    + intros st' other Hin'. apply Hother. right. exact Hin'.
    + intros st' other Hin'. apply Hinv. right. exact Hin'.
    + apply Hinv; [left; reflexivity | exact Hne | exact HI].
Qed.

Lemma DocEmitted_flags (f : option Element) (d : ElementData) :
  DocEmitted rects f d ->
  crossDomain d = false /\ scrollData d = None /\ inIframe d = f.
Proof. intros [e i _ | h e i _ | fi vp i]; destruct f; simpl; auto. Qed.

(** ** Cross-origin frames *)



(** ** The ledger before the scrollbar detector runs *)

Lemma scanProcessed_Forall (Q : ProcessedArea -> Prop) (element : Element)
  (rect : DOMRect) (areas : list ProcessedArea) :
  Forall Q areas -> Forall Q (snd (scanProcessed rects styles element rect areas)).
Proof.
  induction 1 as [|pa areas Hpa Hall IH]; simpl; [constructor|].
  destruct (checkProcessed rects styles element rect pa); simpl; auto;
    destruct (scanProcessed rects styles element rect areas); simpl in *; auto.
Qed.

Lemma isDuplicate_noScrollbarEntries (element : Element) (rect : DOMRect)
  (areas : list ProcessedArea) :
  Forall (fun pa => pa_isScrollbar pa = false) areas ->
  Forall (fun pa => pa_isScrollbar pa = false)
    (snd (isDuplicateInteractiveElement rects styles element rect areas)).
Proof.
  intros Hall. unfold isDuplicateInteractiveElement.
  destruct (isTiny rect); [exact Hall|].
  destruct (isHighPriorityElement rects styles element rect); simpl.
  - apply Forall_app. split; [exact Hall|]. repeat constructor.
  - destruct (walkParents rects styles element rect (ancestors element)); [exact Hall|].
    pose proof (scanProcessed_Forall _ element rect areas Hall) as Hscan.
    destruct (scanProcessed rects styles element rect areas) as [dup kept].
    simpl in Hscan. destruct dup; simpl; [exact Hscan|].
    apply Forall_app. split; [exact Hscan|]. repeat constructor.
Qed.

Lemma fold_left_invariant {A : Type} (I : PassState -> Prop)
  (f : PassState -> A -> PassState) (xs : list A) :
  (forall st x, I st -> I (f st x)) ->
  forall st, I st -> I (List.fold_left f xs st).
Proof.
  intros Hf. induction xs as [|x xs IH]; intros st HI; simpl; auto.
Qed.

Lemma processCandidates_noScrollbarEntries (decorate : ElementData -> ElementData)
  (candidates : list Candidate) :
  forall st, noScrollbarEntries st ->
    noScrollbarEntries (processCandidates args rects styles decorate candidates st).
Proof.
  induction candidates as [|[element rect] candidates IH]; intros st Hst; simpl;
    [exact Hst|].
  pose proof (isDuplicate_noScrollbarEntries element rect _ Hst) as Hdup.
  destruct (isDuplicateInteractiveElement rects styles element rect
              (processedElementAreas st)) as [dup areas].
  simpl in Hdup. apply IH. destruct dup; exact Hdup.
Qed.

Lemma processElementsInDocument_noScrollbarEntries (doc : Document)
  (iframeElement : option Element) (st : PassState) :
  noScrollbarEntries st ->
  noScrollbarEntries (processElementsInDocument args world rects styles doc iframeElement st).
Proof.
  intros Hst. unfold processElementsInDocument, processShadowDOMElements,
    processHiddenFileInputs.
  apply fold_left_invariant.
  { intros st' host Hst'. unfold processShadowHost.
    destruct (shadowRoot host); [|exact Hst'].
    apply processCandidates_noScrollbarEntries. exact Hst'. }
  apply fold_left_invariant.
  { intros st' fileInput Hst'. unfold processHiddenFileInput.
    destruct (findVisibleParent _ _ _ _ _ _); exact Hst'. }
  apply processCandidates_noScrollbarEntries. exact Hst.
Qed.

Lemma processIframe_noScrollbarEntries (st : PassState) (iframe : Element) :
  noScrollbarEntries st ->
  noScrollbarEntries (processIframe args world rects styles st iframe).
Proof.
  intros Hst. unfold processIframe.
  destruct (negb _); [exact Hst|]. destruct (negb _); [exact Hst|].
  destruct (contentDocument world iframe); [|exact Hst|].
  - apply processElementsInDocument_noScrollbarEntries. exact Hst.
  - destruct (isInteractiveElement styles iframe); exact Hst.
Qed.

(** ** Scroll regions *)

(** The ledger after one round of the scrollbar detector. *)
Lemma processScrollable_ledger (st : PassState) (element : Element) :
  processedElementAreas (processScrollable args world rects styles st element)
  = processedElementAreas st
  \/ (canScroll styles element = true
      /\ processedElementAreas (processScrollable args world rects styles st element)
         = (processedElementAreas st
            ++ [areaOfRect element (cachedRect rects element) None None true])%list).
Proof.
  unfold processScrollable, canScroll. cbv zeta.
  destruct (negb (isInViewport args world rects element)
            || negb (isElementVisible styles element))%bool; [left; reflexivity|].
  destruct ((clientWidth element <? 10) || (clientHeight element <? 10))%bool;
    [left; reflexivity|].
  destruct (elementHasVerticalScrollbar styles element
            || elementHasHorizontalScrollbar styles element)%bool eqn:Hcan;
    [|left; reflexivity].
  destruct (negb (isTopElement world rects element)); [left; reflexivity|].
  match goal with
  | |- context [if ?b then st else _] => destruct b; [left; reflexivity|]
  end.
  destruct (existsb _ _); [left; reflexivity|].
  right. split; reflexivity.
Qed.

Lemma processScrollable_reported (st : PassState) (element : Element) :
  isInViewport args world rects element = true ->
  isElementVisible styles element = true ->
  isTopElement world rects element = true ->
  10 <= clientWidth element ->
  10 <= clientHeight element ->
  elementHasVerticalScrollbar styles element = true ->
  1 <= offsetWidth element - clientWidth element ->
  (elementHasHorizontalScrollbar styles element = true ->
   1 <= offsetHeight element - clientHeight element) ->
  existsb (overlapsScrollbar (cachedRect rects element)) (processedElementAreas st) = false ->
  processScrollable args world rects styles st element
  = pushResult args (scrollRegionData rects styles element)
      (setAreas
         (processedElementAreas st
          ++ [areaOfRect element (cachedRect rects element) None None true])%list st).
Proof.
  intros Hview Hvis Htop Hcw Hch HV Hgutter Hbar Hfree. unfold processScrollable.
  rewrite Hview, Hvis, HV, Htop, Hfree. simpl.
  assert (Hw : (clientWidth element <? 10) = false) by (apply Z.ltb_ge; lia).
  assert (Hh : (clientHeight element <? 10) = false) by (apply Z.ltb_ge; lia).
  assert (Hg : (offsetWidth element - clientWidth element <? 1) = false)
    by (apply Z.ltb_ge; lia).
  rewrite Hw, Hh, Hg. simpl.
  destruct (elementHasHorizontalScrollbar styles element); simpl; [|reflexivity].
  assert (Hb : (offsetHeight element - clientHeight element <? 1) = false)
    by (apply Z.ltb_ge; auto).
  rewrite Hb. reflexivity.
Qed.

(** C9, as amended: a node of the main document that is in the viewport,
    visible and topmost, with [scrollHeight] 2000, [clientHeight] 400 and
    computed [overflow-y: auto], has exactly one scroll-region record in the
    result, with [maxScrollTop] 1600, provided that its client width is at
    least 10, that its vertical scrollbar is at least 1 pixel wide (and its
    horizontal one at least 1 pixel high when it also scrolls horizontally),
    and that no other scrollable node has a box overlapping its box by more
    than 80% of the smaller area. *)
Theorem scroll_region_single_record (element : Element) :
  List.NoDup (List.map nodeId (allElements (document world))) ->
  In element (allElements (document world)) ->
  isInViewport args world rects element = true ->
  isElementVisible styles element = true ->
  isTopElement world rects element = true ->
  scrollHeight element = 2000 ->
  clientHeight element = 400 ->
  overflowY (cachedStyle styles element) = "auto" ->
  10 <= clientWidth element ->
  1 <= offsetWidth element - clientWidth element ->
  (elementHasHorizontalScrollbar styles element = true ->
   1 <= offsetHeight element - clientHeight element) ->
  (forall other,
      In other (allElements (document world)) ->
      nodeId other <> nodeId element ->
      canScroll styles other = true ->
      overlapsScrollbar (cachedRect rects element)
        (areaOfRect other (cachedRect rects other) None None true) = false) ->
  countIf (isScrollRegionOf element)
    (findViewportInteractiveElements args world rects styles) = 1%nat
  /\ (forall d, In d (findViewportInteractiveElements args world rects styles) ->
                isScrollRegionOf element d = true ->
                option_map maxScrollTop (scrollData d) = Some 1600).
Proof.
  intros Hnd Hin Hview Hvis Htop Hsh Hch Hoy Hcw Hgutter Hbar Hfree.
  assert (HV : elementHasVerticalScrollbar styles element = true).
  { unfold elementHasVerticalScrollbar. rewrite Hsh, Hch, Hoy.
    simpl. apply orb_true_r. }
  set (I := fun st : PassState =>
              forall pa, In pa (processedElementAreas st) -> pa_isScrollbar pa = true ->
                exists other,
                  In other (allElements (document world))
                  /\ nodeId other <> nodeId element
                  /\ canScroll styles other = true
                  /\ pa = areaOfRect other (cachedRect rects other) None None true).
  split.
  - unfold findViewportInteractiveElements, runPass.
    rewrite (Emits_count_same _ _ _ _ (findMainBrowserScrollbars_emits_bar _)).
    2:{ intros d (v & i & ->). reflexivity. }
    unfold findScrollableElements.
    rewrite (fold_count_once (processScrollable args world rects styles)
               (isScrollRegionOf element) I element); auto.
    + f_equal.
      rewrite (Emits_count_same _ _ _ _
                 (Emits_fold_left _ _ _
                    (fun st f _ => processIframe_emits_noScroll st f) _)).
      2:{ intros d Hs. unfold isScrollRegionOf. rewrite Hs. reflexivity. }
      rewrite (Emits_count_same _ _ _ _ (processElementsInDocument_emits _ _ _)).
      * reflexivity.
      * intros d Hd. apply DocEmitted_flags in Hd. destruct Hd as (_ & Hs & _).
        unfold isScrollRegionOf. rewrite Hs. reflexivity.
    + intros st other _ Hne.
      apply (Emits_count_same _ _ _ _ (processScrollable_emits_region st other)).
      intros d (index & ->). unfold isScrollRegionOf, describes. simpl.
      apply sameNode_false. exact Hne.
    + intros st other Hother Hne HI pa Hpa Hflag.
      destruct (processScrollable_ledger st other) as [Heq | (Hcan & Heq)];
        rewrite Heq in Hpa.
      * apply HI; assumption.
      * apply in_app_or in Hpa. destruct Hpa as [Hpa | [<- | []]].
        -- apply HI; assumption.
        -- exists other. auto.
    + intros st HI. rewrite processScrollable_reported; auto; [| lia |].
      * simpl. rewrite countIf_app. unfold countIf at 2. simpl.
        unfold isScrollRegionOf, describes. simpl.
        unfold sameNode. rewrite Nat.eqb_refl. simpl. lia.
      * apply not_true_iff_false. intros Hex. apply existsb_exists in Hex.
        destruct Hex as (pa & Hpa & Hover).
        destruct (pa_isScrollbar pa) eqn:Hflag.
        -- destruct (HI pa Hpa Hflag) as (other & Hother & Hne & Hcan & ->).
           rewrite (Hfree other Hother Hne Hcan) in Hover. discriminate.
        -- unfold overlapsScrollbar in Hover. rewrite Hflag in Hover. discriminate.
    + intros pa Hpa Hflag. exfalso.
      assert (Hclean : noScrollbarEntries
                (List.fold_left (processIframe args world rects styles)
                   (querySelectorAll isIframeTag (document world))
                   (processElementsInDocument args world rects styles
                      (document world) None initialState))).
      { apply fold_left_invariant.
        - intros st f. apply processIframe_noScrollbarEntries.
        - apply processElementsInDocument_noScrollbarEntries. constructor. }
      unfold noScrollbarEntries in Hclean. rewrite List.Forall_forall in Hclean.
      rewrite (Hclean pa Hpa) in Hflag. discriminate.
  - intros d Hd Hregion.
    destruct runPass_emits as (l & Hr & _ & _ & Hall).
    unfold findViewportInteractiveElements in Hd. rewrite Hr in Hd. simpl in Hd.
    rewrite List.Forall_forall in Hall. specialize (Hall d Hd).
    unfold isScrollRegionOf in Hregion.
    destruct Hall as [d Hdoc' | f fd d Hfd Hdoc' | f i _ _ | e i He | v i].
    + apply DocEmitted_flags in Hdoc'. destruct Hdoc' as (_ & Hs & _).
      rewrite Hs in Hregion. discriminate.
    + apply DocEmitted_flags in Hdoc'. destruct Hdoc' as (_ & Hs & _).
      rewrite Hs in Hregion. discriminate.
    + discriminate.
    + simpl in Hregion. unfold describes in Hregion. simpl in Hregion.
      apply sameNode_true in Hregion.
      assert (e = element) as -> by (eapply NoDup_map_inj; eauto).
      simpl. rewrite Hsh, Hch. reflexivity.
    + discriminate.
Qed.

End PassProperties.

Lemma tiny_candidate_never_emitted_witness :
  passesFilters defaultArgs tinyLinkWorld ∅ ∅ (document tinyLinkWorld) None tinyLink = true
  /\ (12 <= getElementPriority ∅ ∅ tinyLink)%Q
  /\ isDuplicateInteractiveElement ∅ ∅ tinyLink (cachedRect ∅ tinyLink) [] = (true, [])
  /\ forall d, In d (findViewportInteractiveElements defaultArgs tinyLinkWorld ∅ ∅) ->
               isOrdinary d = true -> ed_node d <> Some tinyLink.
Proof.
  split; [reflexivity|]. split; [vm_compute; discriminate|].
  destruct (tiny_candidate_never_emitted defaultArgs tinyLinkWorld ∅ ∅ tinyLink)
    as [Hdup Hout].
  - left. reflexivity.
  - split; [apply Hdup | exact Hout].
Defined.

(** C1 fails for small boxes: [tinyLink] passes the four filters and scores
    363/20, yet the duplicate test returns [true] for it and the pass reports
    nothing. *)
Lemma high_score_tiny_link_dropped :
  passesFilters defaultArgs tinyLinkWorld ∅ ∅ (document tinyLinkWorld) None tinyLink = true
  /\ (12 <= getElementPriority ∅ ∅ tinyLink)%Q
  /\ fst (isDuplicateInteractiveElement ∅ ∅ tinyLink (cachedRect ∅ tinyLink) []) = true
  /\ findViewportInteractiveElements defaultArgs tinyLinkWorld ∅ ∅ = [].
Proof.
  split; [reflexivity|]. split; [vm_compute; discriminate|].
  split; reflexivity.
Qed.

Lemma high_priority_kept_witness :
  isInteractiveElement ∅ hostButton = true
  /\ (12 <= getElementPriority ∅ ∅ richSpan)%Q
  /\ exists index,
       In (createElementData richSpan index)
         (findViewportInteractiveElements defaultArgs richSpanWorld ∅ ∅).
Proof.
  split; [reflexivity|]. split; [vm_compute; discriminate|].
  destruct (high_priority_kept defaultArgs richSpanWorld ∅ ∅ richSpan) as (_ & _ & Hout);
    try (vm_compute; discriminate).
  apply Hout; [|reflexivity|reflexivity].
  simpl. auto.
Defined.



(** ** Re-running the pass *)

(** C8: two invocations on the same tree and window, with the same
    arguments, return the same ordered list of records, whatever the clock
    reads in each: every mutable variable of the pass ([DOM_CACHE], the
    counter, the ledger, the result) is created anew by each invocation. *)
Theorem rerun_same_descriptors (args : Args) (world : World) (first second : Clock) :
  interactiveElements (domTreeResult args world first)
  = interactiveElements (domTreeResult args world second).
Proof.
  unfold domTreeResult.
  destruct (clearCache false (windowSize world) (t_cleared first)
              (newDomCache (windowSize world) (t_created first)))
    as [cleared1 cache1] eqn:H1.
  destruct (clearCache false (windowSize world) (t_cleared second)
              (newDomCache (windowSize world) (t_created second)))
    as [cleared2 cache2] eqn:H2.
  simpl.
  pose proof (clearCache_fresh (windowSize world) (t_created first) (t_cleared first)) as F1.
  pose proof (clearCache_fresh (windowSize world) (t_created second) (t_cleared second)) as F2.
  rewrite H1 in F1. rewrite H2 in F2. simpl in F1, F2.
  destruct F1 as [-> ->]. destruct F2 as [-> ->]. reflexivity.
Qed.



(** Off the fast path, an element that outscores an earlier, smaller one by
    more than 2 takes its place in the ledger only: the record of the earlier
    one is already in the result and stays there. *)
Example replaced_entry_stays_reported :
  isHighPriorityElement ∅ ∅ navSpan (cachedRect ∅ navSpan) = false
  /\ isHighPriorityElement ∅ ∅ clickDiv (cachedRect ∅ clickDiv) = false
  /\ (2 < getElementPriority ∅ ∅ clickDiv - getElementPriority ∅ ∅ navSpan)%Q
  /\ findViewportInteractiveElements defaultArgs spanOverDivWorld ∅ ∅
     = [createElementData navSpan 0; createElementData clickDiv 1]
  /\ List.map pa_element (processedElementAreas (runPass defaultArgs spanOverDivWorld ∅ ∅))
     = [clickDiv].
Proof.
  split; [reflexivity|]. split; [reflexivity|].
  split; [vm_compute; reflexivity|]. split; reflexivity.
Qed.


Lemma scroll_region_single_record_witness :
  countIf (isScrollRegionOf (scrollPane 15))
    (findViewportInteractiveElements defaultArgs (scrollPaneWorld 15) ∅ ∅) = 1%nat
  /\ (forall d, In d (findViewportInteractiveElements defaultArgs (scrollPaneWorld 15) ∅ ∅) ->
                isScrollRegionOf (scrollPane 15) d = true ->
                option_map maxScrollTop (scrollData d) = Some 1600).
Proof.
  apply (scroll_region_single_record defaultArgs (scrollPaneWorld 15) ∅ ∅ (scrollPane 15));
    try reflexivity.
  - repeat constructor; simpl; intuition discriminate.
  - simpl. auto.
  - vm_compute. discriminate.
  - vm_compute. discriminate.
  - intros H. vm_compute in H. discriminate H.
  - intros other [<-|[<-|[<-|[]]]] Hne Hcan;
      first [ exfalso; apply Hne; reflexivity | vm_compute in Hcan; discriminate Hcan ].
Defined.

(** C9 fails for a scroll container whose vertical scrollbar takes no room
    (an overlay scrollbar): the node is in the viewport, visible and topmost,
    with [scrollHeight] 2000, [clientHeight] 400 and [overflow-y: auto], and
    the pass reports nothing. *)
Lemma overlay_scroll_pane_not_reported :
  isInViewport defaultArgs (scrollPaneWorld 0) ∅ (scrollPane 0) = true
  /\ isElementVisible ∅ (scrollPane 0) = true
  /\ isTopElement (scrollPaneWorld 0) ∅ (scrollPane 0) = true
  /\ scrollHeight (scrollPane 0) = 2000
  /\ clientHeight (scrollPane 0) = 400
  /\ overflowY (cachedStyle ∅ (scrollPane 0)) = "auto"
  /\ findViewportInteractiveElements defaultArgs (scrollPaneWorld 0) ∅ ∅ = [].
Proof. repeat split; reflexivity. Qed.

(* ================================================================== *)
(** * Further properties *)

(** ** Induction along the parent chain *)

Lemma Element_parent_ind (P : Element -> Prop) :
  (forall e, parentElement e = None -> P e) ->
  (forall e p, parentElement e = Some p -> P p -> P e) ->
  forall e, P e.
Proof.
  intros Hnone Hsome. fix IH 1. intros e.
  destruct (parentElement e) as [p|] eqn:Hp.
  - apply (Hsome e p Hp).
    destruct e; simpl in Hp. subst. apply IH.
  - apply Hnone. exact Hp.
Qed.

(** ** The cache holds snapshots *)



(** X2: when the window width or height differs from the recorded one,
    [clearCache] drops every stored value: after it, both getters answer
    what the tree says now, for every node, and the new size is recorded. *)
Theorem resize_invalidates_cache (force : bool) (win : WindowSize) (now : Z)
  (c : DomCache) (e : Element) :
  ws_width win <> ws_width (previousWindowSize c)
  \/ ws_height win <> ws_height (previousWindowSize c) ->
  fst (getCachedBoundingRect (snd (clearCache force win now c)) e) = getBoundingClientRect e
  /\ fst (getCachedComputedStyle (snd (clearCache force win now c)) e) = getComputedStyle e
  /\ previousWindowSize (snd (clearCache force win now c)) = win.
Proof.
  intros Hsize.
  assert (Hdue : fst (clearCache force win now c) = true).
  { apply clearCache_flag. unfold clearDue. tauto. }
  assert (Hc : snd (clearCache force win now c)
               = {| boundingRects := ∅; computedStyles := ∅;
                    previousWindowSize := win; lastRunTimestamp := now |}).
  { revert Hdue. unfold clearCache.
    destruct (force || _ || _ || _)%bool; simpl; [reflexivity | discriminate]. }
  rewrite Hc. unfold getCachedBoundingRect, getCachedComputedStyle. simpl.
  rewrite !lookup_empty. auto.
Qed.

Lemma resize_invalidates_cache_witness :
  fst (getCachedBoundingRect cacheClearedAt0 widerLink) = getBoundingClientRect tinyLink
  /\ fst (getCachedBoundingRect
            (snd (clearCache false (mkWindowSize 800 768) 10 cacheClearedAt0)) widerLink)
     = getBoundingClientRect widerLink.
Proof.
  split; [reflexivity|].
  apply (resize_invalidates_cache false (mkWindowSize 800 768) 10 cacheClearedAt0 widerLink).
  left. vm_compute. discriminate.
Defined.

(** ** Viewport membership and the topmost test *)

Lemma Zq_le (x y : Z) : x <= y -> (Zq x <= Zq y)%Q.
Proof. intros H. unfold Zq. rewrite <- Zle_Qle. exact H. Qed.

(** X3: a larger expansion margin never excludes a node: a node in the
    viewport for a margin other than the sentinel -1 is in the viewport for
    every larger margin. *)
Theorem isInViewport_monotone (args1 args2 : Args) (world : World)
  (rects : gmap nat DOMRect) (element : Element) :
  viewportExpansion args1 <> -1 ->
  viewportExpansion args1 <= viewportExpansion args2 ->
  isInViewport args1 world rects element = true ->
  isInViewport args2 world rects element = true.
Proof.
  intros Hsent Hle. unfold isInViewport.
  destruct (Z.eqb_spec (viewportExpansion args1) (-1)) as [|_]; [contradiction|].
  destruct (viewportExpansion args2 =? -1); [reflexivity|].
  unfold outsideExpandedViewport. cbv zeta.
  rewrite !negb_true_iff, !orb_false_iff. unfold Qgtb. rewrite !Qltb_ge.
  intros (((Hb & Ht) & Hr) & Hl).
  pose proof (Zq_le (- viewportExpansion args2) (- viewportExpansion args1)
                ltac:(lia)) as Hneg.
  pose proof (Zq_le (viewportHeight world + viewportExpansion args1)
                (viewportHeight world + viewportExpansion args2) ltac:(lia)) as Hh.
  pose proof (Zq_le (viewportWidth world + viewportExpansion args1)
                (viewportWidth world + viewportExpansion args2) ltac:(lia)) as Hw.
  repeat split; lra.
Qed.

Lemma isInViewport_monotone_witness :
  isInViewport defaultArgs farButtonWorld ∅ farButton = false
  /\ isInViewport (mkArgs false (-1) 4500 false) farButtonWorld ∅ farButton = true
  /\ isInViewport (mkArgs false (-1) 5000 false) farButtonWorld ∅ farButton = true.
Proof.
  split; [reflexivity|]. split; [reflexivity|].
  apply (isInViewport_monotone (mkArgs false (-1) 4500 false) (mkArgs false (-1) 5000 false)).
  - discriminate.
  - simpl. lia.
  - reflexivity.
Defined.

Lemma inAncestorChain_root (root element : Element) :
  nodeId element = nodeId root ->
  forall current, inAncestorChain root element current = false.
Proof.
  intros Hid. induction current as [e Hnone | e p Hsome IH] using Element_parent_ind.
  - destruct e; simpl in *. unfold sameNode. simpl. rewrite Hid.
    destruct (Nat.eqb _ _); [reflexivity|]. rewrite Hnone. reflexivity.
  - destruct e; simpl in *. unfold sameNode. simpl. rewrite Hid.
    destruct (Nat.eqb _ _); [reflexivity|]. rewrite Hsome. exact IH.
Qed.

(** X4: the root element of the main document is never topmost: the walk up
    from the hit node stops at the root before comparing it.  The scrollbar
    detector therefore never reports the root as a scroll region. *)
Theorem root_is_never_topmost (args : Args) (world : World)
  (rects : gmap nat DOMRect) (styles : gmap nat CSSStyle) (element : Element) :
  nodeId element = nodeId (documentElement (document world)) ->
  isTopElement world rects element = false
  /\ forall st, processScrollable args world rects styles st element = st.
Proof.
  intros Hid.
  assert (Htop : isTopElement world rects element = false).
  { unfold isTopElement. cbv zeta.
    destruct (negb _); [reflexivity|].
    destruct (elementFromPoint _ _ _) as [topEl|]; [|reflexivity].
    apply inAncestorChain_root. exact Hid. }
  split; [exact Htop|].
  intros st. unfold processScrollable. rewrite Htop. cbv zeta.
  repeat match goal with
         | |- (if ?b then _ else _) = _ => destruct b; try reflexivity
         end.
Qed.

Lemma root_is_never_topmost_witness :
  elementHasVerticalScrollbar ∅
    (scroller 0 "html" None (mkRect 0 0 1024 768)
       autoScrollStyle 1024 768 1009 768 1009 6000) = true
  /\ isTopElement tinyLinkWorld ∅
       (scroller 0 "html" None (mkRect 0 0 1024 768)
          autoScrollStyle 1024 768 1009 768 1009 6000) = false.
Proof.
  split; [reflexivity|].
  apply (root_is_never_topmost defaultArgs tinyLinkWorld ∅ ∅). reflexivity.
Defined.

(** X5: for a non-negative expansion margin the viewport test adds nothing
    to the topmost test in the main document: a topmost node is in the
    viewport, so the candidates of the main document are the visible,
    topmost, interactive nodes, whatever the margin. *)
Theorem expansion_margin_has_no_effect (args : Args) (world : World)
  (rects : gmap nat DOMRect) (styles : gmap nat CSSStyle) (doc : Document)
  (element : Element) :
  0 <= viewportExpansion args ->
  0 <= clientWidth (documentElement (document world)) ->
  0 <= clientHeight (documentElement (document world)) ->
  (isTopElement world rects element = true ->
   isInViewport args world rects element = true)
  /\ passesFilters args world rects styles doc None element
     = (isElementVisible styles element
        && isTopElement world rects element
        && isInteractiveElement styles element)%bool.
Proof.
  intros Hexp Hcw Hch.
  assert (Himp : isTopElement world rects element = true ->
                 isInViewport args world rects element = true).
  { unfold isTopElement, isInViewport. cbv zeta.
    destruct (Z.eqb_spec (viewportExpansion args) (-1)); [reflexivity|].
    destruct (Qltb (rect_left (cachedRect rects element)) (Zq (innerWidth world))
              && Qgtb (rect_right (cachedRect rects element)) 0
              && Qltb (rect_top (cachedRect rects element)) (Zq (innerHeight world))
              && Qgtb (rect_bottom (cachedRect rects element)) 0)%bool eqn:Hbox;
      simpl; [|discriminate].
    intros _. apply andb_true_iff in Hbox. destruct Hbox as [Hbox Hb].
    apply andb_true_iff in Hbox. destruct Hbox as [Hbox Ht].
    apply andb_true_iff in Hbox. destruct Hbox as [Hl Hr].
    apply Qltb_lt in Hl, Ht. apply Qgtb_gt in Hr, Hb.
    unfold outsideExpandedViewport.
    rewrite negb_true_iff, !orb_false_iff. unfold Qgtb. rewrite !Qltb_ge.
    pose proof (Zq_le (- viewportExpansion args) 0 ltac:(lia)) as Hneg.
    assert (Hvh : (Zq (innerHeight world) <= Zq (viewportHeight world + viewportExpansion args)
                   \/ rect_top (cachedRect rects element)
                      <= Zq (viewportHeight world + viewportExpansion args))%Q).
    { unfold viewportHeight. destruct (Z.eqb_spec (innerHeight world) 0) as [H0|H0].
      - right. rewrite H0 in Ht.
        pose proof (Zq_le 0 (clientHeight (documentElement (document world))
                             + viewportExpansion args) ltac:(lia)).
        change (Zq 0) with 0%Q in *. lra.
      - left. apply Zq_le. lia. }
    assert (Hvw : (Zq (innerWidth world) <= Zq (viewportWidth world + viewportExpansion args)
                   \/ rect_left (cachedRect rects element)
                      <= Zq (viewportWidth world + viewportExpansion args))%Q).
    { unfold viewportWidth. destruct (Z.eqb_spec (innerWidth world) 0) as [H0|H0].
      - right. rewrite H0 in Hl.
        pose proof (Zq_le 0 (clientWidth (documentElement (document world))
                             + viewportExpansion args) ltac:(lia)).
        change (Zq 0) with 0%Q in *. lra.
      - left. apply Zq_le. lia. }
    change (Zq 0) with 0%Q in Hneg.
    repeat split; first [lra | destruct Hvh; lra | destruct Hvw; lra]. }
  split; [exact Himp|].
  unfold passesFilters, isTopElementWithIframeSupport.
  destruct (isTopElement world rects element) eqn:Htop.
  - rewrite (Himp eq_refl). reflexivity.
  - rewrite andb_false_r. simpl. rewrite andb_false_r. reflexivity.
Qed.

Lemma expansion_margin_has_no_effect_witness :
  isInViewport (mkArgs false (-1) 5000 false) farButtonWorld ∅ farButton = true
  /\ passesFilters (mkArgs false (-1) 5000 false) farButtonWorld ∅ ∅
       (document farButtonWorld) None farButton = false.
Proof.
  split; [reflexivity|].
  destruct (expansion_margin_has_no_effect (mkArgs false (-1) 5000 false) farButtonWorld
              ∅ ∅ (document farButtonWorld) farButton) as [_ H];
    [simpl; lia | simpl; lia | simpl; lia |].
  rewrite H. reflexivity.
Defined.

(** ** Classifier and selector *)

(** X6: an [embed], [object], [dialog] or [banner] element without
    attributes is classified as interactive, but the selector of the
    traversal does not match it, so it is never among the candidates of a
    document. *)
Theorem interactive_tags_outside_selector (styles : gmap nat CSSStyle)
  (doc : Document) (element : Element) :
  attrs element = [] ->
  inList (tagName element) ["embed"; "object"; "dialog"; "banner"] = true ->
  isInteractiveElement styles element = true
  /\ candidateSelector element = false
  /\ ~ In element (querySelectorAll candidateSelector doc).
Proof.
  intros Hattrs Htag.
  assert (Hget : forall name, getAttribute element name = None).
  { intros name. unfold getAttribute. rewrite Hattrs. reflexivity. }
  assert (Hcls : forall c, classListContains element c = false).
  { intros c. unfold classListContains, className. rewrite Hget. reflexivity. }
  assert (Htags : tagName element = "embed" \/ tagName element = "object"
                  \/ tagName element = "dialog" \/ tagName element = "banner").
  { unfold inList in Htag. simpl in Htag. rewrite !orb_true_iff in Htag.
    destruct Htag as [H|[H|[H|[H|H]]]]; try discriminate;
      apply String.eqb_eq in H; symmetry in H; auto. }
  assert (Hsel : candidateSelector element = false).
  { unfold candidateSelector, hasAttribute, attrIs, attrIncludes.
    rewrite !Hget, !Hcls.
    destruct Htags as [H | [H | [H | H]]]; rewrite H; reflexivity. }
  split; [|split; [exact Hsel|]].
  - unfold isInteractiveElement, attrIs. rewrite Hget.
    assert (Hrole : hasInteractiveRole element = true).
    { unfold hasInteractiveRole.
      destruct Htags as [H|[H|[H|H]]]; rewrite H; simpl;
        rewrite ?orb_true_r; reflexivity. }
    rewrite Hrole.
    repeat match goal with
           | |- (if ?b then _ else _) = true => destruct b; try reflexivity
           end.
  - unfold querySelectorAll. rewrite filter_In. intros [_ H]. congruence.
Qed.

Lemma interactive_tags_outside_selector_witness :
  isInteractiveElement ∅ bareEmbed = true
  /\ candidateSelector bareEmbed = false
  /\ ~ In bareEmbed (querySelectorAll candidateSelector (page [bareEmbed] [bareEmbed])).
Proof.
  apply (interactive_tags_outside_selector ∅ (page [bareEmbed] [bareEmbed]) bareEmbed);
    reflexivity.
Defined.

(** ** The range of the score *)














(** ** The order of the second pass *)

Lemma insertByArea_HdRel (a c : Candidate) (l : list Candidate) :
  Sorted.HdRel areaLe a l -> areaLe a c -> Sorted.HdRel areaLe a (insertByArea c l).
Proof.
  intros Hl Hac. destruct l as [|c' l]; simpl.
  - constructor. exact Hac.
  - destruct (Qleb _ _); constructor; [exact Hac|].
    inversion Hl; assumption.
Qed.

Lemma insertByArea_Sorted (c : Candidate) (l : list Candidate) :
  Sorted.Sorted areaLe l -> Sorted.Sorted areaLe (insertByArea c l).
Proof.
  induction 1 as [|c' l Hsorted IH Hhd]; simpl.
  - repeat constructor.
  - destruct (Qleb (rectArea (snd c)) (rectArea (snd c'))) eqn:Hle.
    + constructor; [constructor; assumption|].
      constructor. apply Qleb_le in Hle. exact Hle.
    + constructor; [exact IH|].
      apply insertByArea_HdRel; [exact Hhd|].
      apply Qleb_gt in Hle. unfold areaLe. lra.
Qed.

Lemma insertByArea_Permutation (c : Candidate) (l : list Candidate) :
  Permutation (c :: l) (insertByArea c l).
Proof.
  induction l as [|c' l IH]; simpl; [reflexivity|].
  destruct (Qleb _ _); [reflexivity|].
  etransitivity; [apply perm_swap|]. apply perm_skip. exact IH.
Qed.

Lemma ofArea_insertByArea (a : Q) (c : Candidate) (l : list Candidate) :
  ofArea a (insertByArea c l)
  = if Qeq_bool (rectArea (snd c)) a then c :: ofArea a l else ofArea a l.
Proof.
  induction l as [|c' l IH]; simpl.
  - unfold ofArea. simpl. destruct (Qeq_bool _ _); reflexivity.
  - destruct (Qleb (rectArea (snd c)) (rectArea (snd c'))) eqn:Hle.
    + unfold ofArea. simpl. destruct (Qeq_bool (rectArea (snd c)) a); reflexivity.
    + unfold ofArea in *. simpl. rewrite IH.
      destruct (Qeq_bool (rectArea (snd c)) a) eqn:Hc; [|reflexivity].
      assert (Hc' : Qeq_bool (rectArea (snd c')) a = false).
      { apply not_true_iff_false. intros H.
        apply Qeq_bool_iff in H, Hc. apply Qleb_gt in Hle. lra. }
      rewrite Hc'. reflexivity.
Qed.

(** X9: the second pass takes the candidates smallest area first: the
    sorted list is a rearrangement of the collected one, areas never
    decrease along it, and candidates of equal area keep the order in which
    they were collected. *)
Theorem sortByArea_spec (l : list Candidate) :
  Permutation l (sortByArea l)
  /\ Sorted.Sorted areaLe (sortByArea l)
  /\ forall a, ofArea a (sortByArea l) = ofArea a l.
Proof.
  induction l as [|c l (Hperm & Hsorted & Hstable)]; simpl.
  - repeat split; constructor.
  - split; [|split].
    + etransitivity; [apply perm_skip; exact Hperm|]. apply insertByArea_Permutation.
    + apply insertByArea_Sorted. exact Hsorted.
    + intros a. rewrite ofArea_insertByArea, Hstable. unfold ofArea. simpl.
      destruct (Qeq_bool _ _); reflexivity.
Qed.

(** ** What the duplicate test does to the ledger *)

Lemma scanProcessed_sublist (rects : gmap nat DOMRect) (styles : gmap nat CSSStyle)
  (element : Element) (rect : DOMRect) (areas : list ProcessedArea) :
  sublist (snd (scanProcessed rects styles element rect areas)) areas.
Proof.
  induction areas as [|pa areas IH]; simpl; [constructor|].
  destruct (checkProcessed rects styles element rect pa); simpl;
    try (destruct (scanProcessed rects styles element rect areas); simpl in *;
         apply sublist_skip; exact IH).
  - reflexivity.
  - apply sublist_cons. exact IH.
Qed.

(** X10: a candidate reported as a duplicate adds nothing to the ledger,
    which keeps a subsequence of its entries; a candidate that is kept is
    appended as the last entry, after a subsequence of the earlier ones. *)
Theorem isDuplicate_ledger (rects : gmap nat DOMRect) (styles : gmap nat CSSStyle)
  (element : Element) (rect : DOMRect) (areas : list ProcessedArea) :
  (fst (isDuplicateInteractiveElement rects styles element rect areas) = true ->
   sublist (snd (isDuplicateInteractiveElement rects styles element rect areas)) areas)
  /\ (fst (isDuplicateInteractiveElement rects styles element rect areas) = false ->
      exists kept priority area,
        sublist kept areas
        /\ snd (isDuplicateInteractiveElement rects styles element rect areas)
           = (kept ++ [areaOfRect element rect priority area false])%list).
Proof.
  unfold isDuplicateInteractiveElement.
  destruct (isTiny rect); cbn [fst snd].
  { split; [reflexivity | discriminate]. }
  destruct (isHighPriorityElement rects styles element rect); cbv zeta; cbn [fst snd].
  { split; [discriminate|]. intros _. do 3 eexists. split; reflexivity. }
  destruct (walkParents rects styles element rect (ancestors element)); cbn [fst snd].
  { split; [reflexivity | discriminate]. }
  pose proof (scanProcessed_sublist rects styles element rect areas) as Hsub.
  destruct (scanProcessed rects styles element rect areas) as [dup kept].
  cbn [fst snd] in Hsub. destruct dup; cbn [fst snd].
  - split; [intros _; exact Hsub | discriminate].
  - split; [discriminate|]. intros _. do 3 eexists. split; [exact Hsub | reflexivity].
Qed.

(** ** Icons inside buttons *)

Lemma selfAndAncestors_unfold (e : Element) :
  selfAndAncestors e
  = e :: match parentElement e with
         | Some p => selfAndAncestors p
         | None => []
         end.
Proof. destruct e; reflexivity. Qed.

(** X11: an [i] or [span] off the fast path whose parent is an interactive
    button (by tag or by role) containing more than 85% of its box is a
    duplicate, whatever the ledger holds; the ledger is left as it is. *)
Theorem icon_inside_button_is_duplicate (rects : gmap nat DOMRect)
  (styles : gmap nat CSSStyle) (element parent : Element) (rect : DOMRect)
  (areas : list ProcessedArea) :
  parentElement element = Some parent ->
  tagName element = "i" \/ tagName element = "span" ->
  tagName parent = "button" \/ getAttribute parent "role" = Some "button" ->
  isInteractiveElement styles parent = true ->
  isTiny rect = false ->
  isHighPriorityElement rects styles element rect = false ->
  (85 # 100 < containmentRatio rect (cachedRect rects parent))%Q ->
  isDuplicateInteractiveElement rects styles element rect areas = (true, areas).
Proof.
  intros Hparent Htag Hbutton Hint Htiny Hfast Hratio.
  unfold isDuplicateInteractiveElement. rewrite Htiny, Hfast. cbv zeta.
  assert (Hwalk : walkParents rects styles element rect (ancestors element) = true).
  { unfold ancestors. rewrite Hparent, selfAndAncestors_unfold.
    change (walkParents rects styles element rect (parent :: ?l))
      with (match checkParent rects styles element rect parent with
            | ReturnTrue => true
            | Break => false
            | _ => walkParents rects styles element rect l
            end).
    assert (Hcheck : checkParent rects styles element rect parent = ReturnTrue).
    { unfold checkParent. cbv zeta. rewrite Hint.
      unfold containmentRatio in Hratio. apply Qgtb_gt in Hratio. rewrite Hratio.
      assert (Hb : (String.eqb (tagName parent) "button"
                    || attrIs parent "role" "button")%bool = true).
      { destruct Hbutton as [H|H].
        - rewrite H. reflexivity.
        - unfold attrIs. rewrite H. apply orb_true_r. }
      rewrite Hb.
      destruct Htag as [H|H]; rewrite H; reflexivity. }
    rewrite Hcheck. reflexivity. }
  rewrite Hwalk. reflexivity.
Qed.

Lemma icon_inside_button_is_duplicate_witness :
  isDuplicateInteractiveElement ∅ ∅ iconSpan (cachedRect ∅ iconSpan) [] = (true, []).
Proof.
  apply (icon_inside_button_is_duplicate ∅ ∅ iconSpan plainButton);
    first [reflexivity | right; reflexivity | left; reflexivity | vm_compute; reflexivity].
Defined.

(** ** The suggested interaction *)

Ltac split_tests :=
  repeat match goal with
         | |- context [String.eqb ?a ?b] =>
             destruct (String.eqb_spec a b); [subst|];
             cbn [orb andb negb]; cbv iota
         | |- context [if ?b then _ else _] => destruct b; cbv iota
         end.

(** X12: what the suggested action tells about the node.  [setInputFiles]
    is given exactly to file inputs and [selectOption] exactly to [select]
    elements; [check] and [uncheck] only to checkbox and radio inputs;
    [waitFor] only to [dialog] elements. *)
Theorem action_reveals_element (element : Element) (checked : bool) :
  (action (addPlaywrightInteractions element checked) = "setInputFiles"
   <-> tagName element = "input" /\ attrLowerOrEmpty element "type" = "file")
  /\ (action (addPlaywrightInteractions element checked) = "selectOption"
      <-> tagName element = "select")
  /\ (action (addPlaywrightInteractions element checked) = "check"
      \/ action (addPlaywrightInteractions element checked) = "uncheck" ->
      tagName element = "input"
      /\ (attrLowerOrEmpty element "type" = "checkbox"
          \/ attrLowerOrEmpty element "type" = "radio"))
  /\ (action (addPlaywrightInteractions element checked) = "waitFor" ->
      tagName element = "dialog").
Proof.
  unfold addPlaywrightInteractions. cbv zeta. cbn [action].
  unfold inList, textInputTypes. cbn [existsb].
  set (tag := tagName element).
  set (type := attrLowerOrEmpty element "type").
  set (role := attrLowerOrEmpty element "role").
  set (editable := (attrIs element "contenteditable" "true" || isContentEditable element)%bool).
  clearbody tag type role editable.
  split_tests;
    repeat split; intros;
    repeat match goal with
           | H : _ /\ _ |- _ => destruct H
           | H : _ \/ _ |- _ => destruct H
           end;
    try discriminate; try congruence; auto.
Qed.

(** ** The captured attributes *)

Lemma assoc_setProperty (k key value : string) (obj : list (string * string)) :
  assoc k (setProperty key value obj)
  = if String.eqb k key then Some value else assoc k obj.
Proof.
  induction obj as [|[k0 v0] obj IH]; cbn [setProperty assoc]; [reflexivity|].
  destruct (String.eqb_spec key k0) as [->|Hne]; cbn [assoc].
  - destruct (String.eqb k k0); reflexivity.
  - rewrite IH. destruct (String.eqb_spec k k0) as [->|Hne'].
    + destruct (String.eqb_spec k0 key); [congruence | reflexivity].
    + reflexivity.
Qed.

Lemma assoc_captureListed (element : Element) (names : list string) (k : string) :
  forall obj,
    assoc k (captureListed element names obj)
    = if inList k names
      then match getAttribute element k with
           | Some v => Some v
           | None => assoc k obj
           end
      else assoc k obj.
Proof.
  unfold captureListed, inList.
  induction names as [|attr names IH]; intros obj; cbn [List.fold_left existsb];
    [reflexivity|].
  rewrite IH.
  destruct (String.eqb_spec k attr) as [->|Hne]; cbn [orb].
  - destruct (getAttribute element attr) as [v|] eqn:Hattr.
    + rewrite assoc_setProperty, String.eqb_refl.
      destruct (existsb _ _); reflexivity.
    + destruct (existsb _ _); reflexivity.
  - assert (Hsame : assoc k (match getAttribute element attr with
                             | Some value => setProperty attr value obj
                             | None => obj
                             end) = assoc k obj).
    { destruct (getAttribute element attr); [|reflexivity].
      rewrite assoc_setProperty. apply String.eqb_neq in Hne. rewrite Hne. reflexivity. }
    rewrite Hsame. reflexivity.
Qed.

(** X13: the captured attributes are the attributes of the two fixed lists
    that the node carries, each with the value [getAttribute] gives; no
    other name is captured. *)
Theorem captured_listed_attributes (element : Element) (name : string) :
  assoc name (listedAttributes (getElementAttributes element))
  = if inList name (standardAttributes ++ ariaAttributes)
    then getAttribute element name
    else None.
Proof.
  unfold getElementAttributes. cbn [listedAttributes].
  rewrite !assoc_captureListed. cbn [assoc].
  unfold inList. rewrite existsb_app.
  destruct (existsb (String.eqb name) standardAttributes),
           (existsb (String.eqb name) ariaAttributes),
           (getAttribute element name); reflexivity.
Qed.

Lemma assoc_absent (k : string) (l : list (string * string)) :
  ~ In k (List.map fst l) -> assoc k l = None.
Proof.
  induction l as [|[k0 v0] l IH]; cbn [assoc List.map fst In]; [reflexivity|].
  intros Hnot. destruct (String.eqb_spec k k0) as [->|_]; [tauto|].
  apply IH. tauto.
Qed.

Lemma assoc_captureData (k : string) (l : list (string * string)) :
  List.NoDup (List.map fst l) ->
  forall obj,
    assoc k (List.fold_left
               (fun dataAttributes attr =>
                  if Str.startsWith (fst attr) "data-"
                  then setProperty (fst attr) (snd attr) dataAttributes
                  else dataAttributes) l obj)
    = match (if Str.startsWith k "data-" then assoc k l else None) with
      | Some v => Some v
      | None => assoc k obj
      end.
Proof.
  induction l as [|[k0 v0] l IH]; intros Hnodup obj; cbn [List.fold_left assoc].
  - destruct (Str.startsWith k "data-"); reflexivity.
  - cbn [List.map fst] in Hnodup. inversion Hnodup as [|? ? Hnotin Hrest]; subst.
    rewrite (IH Hrest). cbn [fst snd].
    destruct (String.eqb_spec k k0) as [->|Hne].
    + rewrite (assoc_absent _ _ Hnotin).
      destruct (Str.startsWith k0 "data-") eqn:Hdata; [|reflexivity].
      rewrite assoc_setProperty, String.eqb_refl. reflexivity.
    + assert (Hsame : assoc k (if Str.startsWith k0 "data-"
                               then setProperty k0 v0 obj else obj) = assoc k obj).
      { destruct (Str.startsWith k0 "data-"); [|reflexivity].
        rewrite assoc_setProperty. apply String.eqb_neq in Hne. rewrite Hne. reflexivity. }
      rewrite Hsame. reflexivity.
Qed.

(** X14: on a node whose attribute names are distinct, the [dataAttributes]
    object is present exactly when some attribute name starts with [data-],
    and it then holds exactly those attributes with their values. *)
Theorem captured_data_attributes (element : Element) :
  List.NoDup (List.map fst (attrs element)) ->
  match dataAttributes (getElementAttributes element) with
  | Some captured =>
      (exists name, Str.startsWith name "data-" = true
                    /\ hasAttribute element name = true)
      /\ forall name,
          assoc name captured
          = if Str.startsWith name "data-" then getAttribute element name else None
  | None =>
      forall name, Str.startsWith name "data-" = true -> getAttribute element name = None
  end.
Proof.
  intros Hnodup. unfold getElementAttributes. cbn [dataAttributes].
  destruct (existsb _ (attrs element)) eqn:Hany.
  - split.
    + apply existsb_exists in Hany. destruct Hany as ([k v] & Hin & Hdata).
      exists k. split; [exact Hdata|].
      unfold hasAttribute, getAttribute.
      destruct (assoc k (attrs element)) eqn:Hassoc; [reflexivity|].
      exfalso. clear - Hin Hassoc.
      induction (attrs element) as [|[k0 v0] l IH]; [destruct Hin|].
      cbn [assoc] in Hassoc. destruct (String.eqb_spec k k0) as [->|Hne]; [discriminate|].
      destruct Hin as [Heq|Hin]; [congruence | auto].
    + intros name. unfold captureData, getAttribute.
      rewrite (assoc_captureData _ _ Hnodup). cbn [assoc].
      destruct (Str.startsWith name "data-"); [|reflexivity].
      destruct (assoc name (attrs element)); reflexivity.
  - intros name Hdata. unfold getAttribute.
    destruct (assoc name (attrs element)) as [v|] eqn:Hassoc; [|reflexivity].
    exfalso.
    assert (Hin : In (name, v) (attrs element)).
    { clear - Hassoc. induction (attrs element) as [|[k0 v0] l IH]; [discriminate|].
      cbn [assoc] in Hassoc. destruct (String.eqb_spec name k0) as [->|Hne].
      - left. congruence.
      - right. auto. }
    assert (Htrue : existsb (fun attr => Str.startsWith (fst attr) "data-")
                      (attrs element) = true).
    { apply existsb_exists. exists (name, v). split; [exact Hin | exact Hdata]. }
    congruence.
Qed.

Lemma captured_data_attributes_witness :
  match dataAttributes (getElementAttributes toggleDiv) with
  | Some captured =>
      (exists name, Str.startsWith name "data-" = true
                    /\ hasAttribute toggleDiv name = true)
      /\ forall name,
          assoc name captured
          = if Str.startsWith name "data-" then getAttribute toggleDiv name else None
  | None =>
      forall name, Str.startsWith name "data-" = true -> getAttribute toggleDiv name = None
  end.
Proof.
  apply (captured_data_attributes toggleDiv).
  repeat constructor; cbn [In List.map fst attrs toggleDiv node];
    intros H; repeat destruct H as [H|H]; try discriminate H; exact H.
Defined.

(** ** Landmarks above a node *)

Lemma contextualContainersFrom_spec (bodyEl : Element) (fuel : nat) :
  forall chain,
    (length (contextualContainersFrom bodyEl fuel chain) <= fuel)%nat
    /\ forall c, In c (contextualContainersFrom bodyEl fuel chain) ->
                 c = containerOf (cc_node c)
                 /\ In (cc_node c) (firstn fuel chain)
                 /\ isLandmark (cc_node c) = true
                 /\ sameNode (cc_node c) bodyEl = false.
Proof.
  induction fuel as [|fuel IH]; intros chain.
  - split; [reflexivity | intros c []].
  - destruct chain as [|parent chain]; cbn [contextualContainersFrom].
    { split; [cbn; lia | intros c []]. }
    destruct (sameNode parent bodyEl) eqn:Hbody.
    { split; [cbn; lia | intros c []]. }
    destruct (IH chain) as [Hlen Hall]. split.
    + rewrite List.length_app.
      destruct (isLandmark parent); cbn [length]; lia.
    + intros c Hin. apply in_app_or in Hin. destruct Hin as [Hin|Hin].
      * destruct (isLandmark parent) eqn:Hland; [|destruct Hin].
        destruct Hin as [<-|[]]. cbn [containerOf cc_node firstn].
        repeat split; [left; reflexivity | exact Hland | exact Hbody].
      * destruct (Hall c Hin) as (Hc & Hfirst & Hland & Hnb).
        repeat split; try assumption. cbn [firstn]. right. exact Hfirst.
Qed.

(** X15: [contextualContainers] lists at most three entries; each is built
    from one of the three nearest ancestors of the node, which carries a
    [role] attribute or a landmark tag and is not the body. *)
Theorem contextualContainers_spec (world : World) (element : Element) :
  (length (contextualContainers world element) <= 3)%nat
  /\ forall c, In c (contextualContainers world element) ->
               c = containerOf (cc_node c)
               /\ In (cc_node c) (firstn 3 (ancestors element))
               /\ isLandmark (cc_node c) = true
               /\ sameNode (cc_node c) (body (document world)) = false.
Proof.
  unfold contextualContainers. apply contextualContainersFrom_spec.
Qed.

(** ** The structural path *)

Lemma string_app_assoc (a b c : string) : ((a ++ b) ++ c = a ++ (b ++ c))%string.
Proof.
  induction a as [|x a IH]; [reflexivity|].
  change (String x ((a ++ b) ++ c) = String x (a ++ b ++ c))%string.
  rewrite IH. reflexivity.
Qed.

Lemma concat_snoc (sep x : string) (l : list string) :
  l <> [] ->
  String.concat sep (l ++ [x]) = (String.concat sep l ++ sep ++ x)%string.
Proof.
  induction l as [|y l IH]; intros Hne; [congruence|].
  destruct l as [|z l].
  - reflexivity.
  - change (String.concat sep ((y :: z :: l) ++ [x]))
      with (y ++ sep ++ String.concat sep ((z :: l) ++ [x]))%string.
    rewrite IH by discriminate.
    change (String.concat sep (y :: z :: l))
      with (y ++ sep ++ String.concat sep (z :: l))%string.
    rewrite !string_app_assoc. reflexivity.
Qed.

Lemma pathSegments_nonempty (escape : string -> string) (positionOfType : Element -> nat)
  (e : Element) :
  pathSegments escape positionOfType (selfAndAncestors e) <> [].
Proof.
  rewrite selfAndAncestors_unfold. cbn [pathSegments].
  destruct (Str.nonEmpty (elementId e)); [discriminate|].
  intros H. apply app_eq_nil in H. destruct H as [_ H]. discriminate H.
Qed.

(** X16: the path of a node with an [id] is its tag and escaped id alone;
    the path of a node without [id] is its own segment, appended after the
    path of its parent when it has one. *)
Theorem getJSPathForElement_step (escape : string -> string)
  (positionOfType : Element -> nat) (element : Element) :
  Str.nonEmpty (tagName element) = true ->
  (forall parent, parentElement element = Some parent ->
                  Str.nonEmpty (tagName parent) = true) ->
  getJSPathForElement escape positionOfType element
  = if Str.nonEmpty (elementId element)
    then (tagName element ++ "#" ++ escape (elementId element))%string
    else match parentElement element with
         | Some parent =>
             (getJSPathForElement escape positionOfType parent
              ++ " > " ++ pathSegment escape positionOfType element)%string
         | None => pathSegment escape positionOfType element
         end.
Proof.
  intros Htag Hparent. unfold getJSPathForElement at 1. rewrite Htag.
  rewrite selfAndAncestors_unfold. cbn [pathSegments].
  destruct (Str.nonEmpty (elementId element)); [reflexivity|].
  destruct (parentElement element) as [parent|].
  - rewrite concat_snoc by apply pathSegments_nonempty.
    unfold getJSPathForElement. rewrite (Hparent parent eq_refl). reflexivity.
  - reflexivity.
Qed.

Lemma getJSPathForElement_step_witness :
  getJSPathForElement (fun s => s) (fun _ => 1%nat) iconSpan
  = (getJSPathForElement (fun s => s) (fun _ => 1%nat) plainButton
     ++ " > " ++ pathSegment (fun s => s) (fun _ => 1%nat) iconSpan)%string.
Proof.
  apply (getJSPathForElement_step (fun s => s) (fun _ => 1%nat) iconSpan).
  - reflexivity.
  - intros parent H. injection H as <-. reflexivity.
Defined.

(** ** The text of a record *)

Lemma substring_length_le (n : nat) (s : string) :
  (String.length (String.substring 0 n s) <= n)%nat.
Proof.
  revert s. induction n as [|n IH]; intros [|c s]; cbn [String.substring String.length];
    try lia.
  specialize (IH s). lia.
Qed.

Lemma substring_prefix (n : nat) (s : string) :
  String.prefix (String.substring 0 n s) s = true.
Proof.
  revert s. induction n as [|n IH]; intros [|c s];
    cbn [String.substring String.prefix]; try reflexivity.
  destruct (ascii_dec c c); [apply IH | congruence].
Qed.

Lemma emitted_all (args : Args) (world : World) (rects : gmap nat DOMRect)
  (styles : gmap nat CSSStyle) (d : ElementData) :
  In d (findViewportInteractiveElements args world rects styles) ->
  Emitted world rects styles d.
Proof.
  unfold findViewportInteractiveElements.
  destruct (runPass_emits args world rects styles) as (l & Hr & _ & _ & Hall).
  rewrite Hr. cbn [result initialState app]. intros Hin.
  rewrite List.Forall_forall in Hall. apply Hall. exact Hin.
Qed.

(** X17: the text of every record of a pass has at most 100 characters, and
    it is a prefix of the trimmed text content of the node the record was
    built from. *)
Theorem text_is_bounded_prefix (args : Args) (world : World) (rects : gmap nat DOMRect)
  (styles : gmap nat CSSStyle) (d : ElementData) :
  In d (findViewportInteractiveElements args world rects styles) ->
  (String.length (ed_text d) <= 100)%nat
  /\ forall element, ed_node d = Some element ->
                     String.prefix (ed_text d) (Str.trim (textContent element)) = true.
Proof.
  intros Hin. apply emitted_all in Hin.
  assert (Hdoc : forall f d', DocEmitted rects f d' ->
            (String.length (ed_text d') <= 100)%nat
            /\ forall element, ed_node d' = Some element ->
                 String.prefix (ed_text d') (Str.trim (textContent element)) = true).
  { intros f d' [e i _ | h e i _ | fi vp i]; destruct f;
      cbn [withIframe withShadowHost asHiddenFileInput createElementData ed_text ed_node];
      unfold getElementText;
      (split; [apply substring_length_le
              | intros element Heq; injection Heq as <-; apply substring_prefix]). }
  destruct Hin as [d Hd | iframe iframeDoc d _ Hd | iframe index _ _ | element index _
                  | vertical index].
  - apply (Hdoc None). exact Hd.
  - apply (Hdoc (Some iframe)). exact Hd.
  - cbn [asCrossDomainIframe createElementData ed_text ed_node]. unfold getElementText.
    split; [apply substring_length_le
           | intros element Heq; injection Heq as <-; apply substring_prefix].
  - unfold scrollRegionData. cbn [ed_text ed_node]. unfold getElementText.
    split; [apply substring_length_le
           | intros e Heq; injection Heq as <-; apply substring_prefix].
  - unfold mainScrollbarData. cbv zeta. cbn [ed_text ed_node].
    split; [cbn; lia | intros e Heq; discriminate Heq].
Qed.

Lemma text_is_bounded_prefix_witness :
  (String.length (ed_text (createElementData hostButton 0)) <= 100)%nat
  /\ forall element, ed_node (createElementData hostButton 0) = Some element ->
       String.prefix (ed_text (createElementData hostButton 0))
         (Str.trim (textContent element)) = true.
Proof.
  apply (text_is_bounded_prefix defaultArgs richSpanWorld ∅ ∅).
  vm_compute. left. reflexivity.
Defined.

(** ** Where the records of a pass come from *)

Section Soundness.

Variable args : Args.
Variable world : World.
Variable rects : gmap nat DOMRect.
Variable styles : gmap nat CSSStyle.

Lemma docSound_candidate (doc : Document) (f : option Element) (element : Element)
  (d0 : ElementData) :
  ed_node d0 = Some element -> inIframe d0 = None ->
  isOrdinary d0 = true -> isHiddenFileInput d0 = false ->
  candidateSelector element = true ->
  passesFilters args world rects styles doc f element = true ->
  isTiny (cachedRect rects element) = false ->
  docSound args world rects styles doc f (withIframe f d0).
Proof.
  intros Hnode Hframe Hord Hhidden Hsel Hpass Htiny. split.
  - intros _. exists element.
    destruct f; cbn [withIframe ed_node inIframe]; repeat split; assumption.
  - destruct f; cbn [withIframe isHiddenFileInput]; rewrite Hhidden; discriminate.
Qed.

Lemma findVisibleParent_spec (doc : Document) (f : option Element) (chain : list Element)
  (p : Element) :
  findVisibleParent world rects styles doc f chain = Some p ->
  In p chain
  /\ sameNode p (body doc) = false
  /\ isTopElementWithIframeSupport world rects doc p f = true
  /\ isElementVisible styles p = true.
Proof.
  induction chain as [|parent chain IH]; cbn [findVisibleParent]; [discriminate|].
  destruct (sameNode parent (body doc)) eqn:Hbody; [discriminate|].
  destruct (isTopElementWithIframeSupport world rects doc parent f) eqn:Htop;
    cbn [andb].
  - destruct (isElementVisible styles parent) eqn:Hvis.
    + intros Heq. injection Heq as <-. repeat split; try assumption. left. reflexivity.
    + intros Heq. destruct (IH Heq) as (Hin & Hrest). split; [right; exact Hin | exact Hrest].
  - intros Heq. destruct (IH Heq) as (Hin & Hrest). split; [right; exact Hin | exact Hrest].
Qed.

Lemma processElementsInDocument_sound (doc : Document) (f : option Element)
  (st : PassState) :
  Emits (docSound args world rects styles doc f) st
    (processElementsInDocument args world rects styles doc f st).
Proof.
  unfold processElementsInDocument. cbv zeta.
  eapply Emits_trans; [|unfold processShadowDOMElements; apply Emits_fold_left].
  eapply Emits_trans; [|unfold processHiddenFileInputs; apply Emits_fold_left].
  - apply processCandidates_emits.
    + apply highlightIndex_withIframe.
    + intros element rect index Hin Htiny.
      apply In_sortByArea, In_collectCandidates in Hin.
      destruct Hin as (Hin & Hpass & ->).
      apply filter_In in Hin. destruct Hin as [_ Hsel].
      apply (docSound_candidate doc f element); try assumption; reflexivity.
  - intros st' fileInput Hin. unfold processHiddenFileInput.
    destruct (findVisibleParent world rects styles doc f (ancestors fileInput))
      as [visibleParent|] eqn:Hfind; [|apply Emits_refl].
    apply Emits_push; [rewrite highlightIndex_withIframe; reflexivity|].
    apply findVisibleParent_spec in Hfind.
    destruct Hfind as (Hanc & Hbody & Htop & Hvis).
    apply filter_In in Hin. destruct Hin as [_ Hsel].
    split.
    + destruct f; cbn [withIframe]; intros H; discriminate H.
    + intros _. exists fileInput, visibleParent.
      destruct f; cbn [withIframe asHiddenFileInput createElementData ed_node inIframe
                         visibleParentTag boundingRect];
        repeat split; assumption.
  - intros st' host _. unfold processShadowHost.
    destruct (shadowRoot host) as [shadowAll|]; [|apply Emits_refl].
    apply processCandidates_emits.
    + intros d. rewrite highlightIndex_withIframe. reflexivity.
    + intros element rect index Hin Htiny.
      apply In_sortByArea, In_collectCandidates in Hin.
      destruct Hin as (Hin & Hpass & ->).
      apply filter_In in Hin. destruct Hin as [_ Hsel].
      apply (docSound_candidate doc f element); try assumption; reflexivity.
Qed.

Lemma sound_other (d : ElementData) :
  isOrdinary d = false -> isHiddenFileInput d = false ->
  sound args world rects styles d.
Proof.
  intros Hord Hhidden. exists (document world), None.
  split; [reflexivity|]. split; intros H; congruence.
Qed.

Lemma processIframe_sound (st : PassState) (iframe : Element) :
  Emits (sound args world rects styles) st
    (processIframe args world rects styles st iframe).
Proof.
  unfold processIframe.
  destruct (negb (isInViewport _ _ _ _)); [apply Emits_refl|].
  destruct (negb (isElementVisible _ _)); [apply Emits_refl|].
  destruct (contentDocument world iframe) as [iframeDoc| |] eqn:Hdoc.
  - eapply Emits_mono; [|apply processElementsInDocument_sound].
    intros d Hd. exists iframeDoc, (Some iframe). split; [exact Hdoc | exact Hd].
  - apply Emits_refl.
  - destruct (isInteractiveElement styles iframe); [|apply Emits_refl].
    apply Emits_push; [reflexivity|]. apply sound_other; reflexivity.
Qed.

Lemma runPass_sound :
  Emits (sound args world rects styles) initialState (runPass args world rects styles).
Proof.
  unfold runPass. cbv zeta.
  eapply Emits_trans.
  2:{ eapply Emits_mono; [|apply findMainBrowserScrollbars_emits_bar].
      intros d (vertical & index & ->). apply sound_other; reflexivity. }
  eapply Emits_trans.
  2:{ unfold findScrollableElements. apply Emits_fold_left. intros st' element _.
      eapply Emits_mono; [|apply processScrollable_emits_region].
      intros d (index & ->). apply sound_other; reflexivity. }
  eapply Emits_trans; [|apply Emits_fold_left; intros; apply processIframe_sound].
  eapply Emits_mono; [|apply processElementsInDocument_sound].
  intros d Hd. exists (document world), None. split; [reflexivity | exact Hd].
Qed.

Lemma sound_all (d : ElementData) :
  In d (findViewportInteractiveElements args world rects styles) ->
  sound args world rects styles d.
Proof.
  unfold findViewportInteractiveElements.
  destruct runPass_sound as (l & Hr & _ & _ & Hall).
  rewrite Hr. cbn [result initialState app]. intros Hin.
  rewrite List.Forall_forall in Hall. apply Hall. exact Hin.
Qed.

(** X18: every ordinary record of a pass was built from a node that matches
    the candidate selector, passes the four filters (in viewport, visible,
    topmost, interactive) in the main document or in the document of a
    same-origin frame, and has a box of at least 5 by 5 pixels. *)
Theorem ordinary_records_pass_filters (d : ElementData) :
  In d (findViewportInteractiveElements args world rects styles) ->
  isOrdinary d = true ->
  exists doc iframeElement,
    reached world doc iframeElement
    /\ ordinaryFrom args world rects styles doc iframeElement d.
Proof.
  intros Hin Hord. destruct (sound_all d Hin) as (doc & f & Hreached & Hsound & _).
  exists doc, f. split; [exact Hreached | apply Hsound; exact Hord].
Qed.

(** X19: every hidden-file-input record of a pass stands for a node matching
    the hidden-file-input selector, and its box and [visibleParentTag] are
    those of an ancestor of that node below the body that is visible and
    topmost. *)
Theorem hidden_file_input_proxies (d : ElementData) :
  In d (findViewportInteractiveElements args world rects styles) ->
  isHiddenFileInput d = true ->
  exists doc iframeElement,
    reached world doc iframeElement
    /\ proxyFrom world rects styles doc iframeElement d.
Proof.
  intros Hin Hhidden. destruct (sound_all d Hin) as (doc & f & Hreached & _ & Hsound).
  exists doc, f. split; [exact Hreached | apply Hsound; exact Hhidden].
Qed.

End Soundness.

Lemma ordinary_records_pass_filters_witness :
  exists doc iframeElement,
    reached richSpanWorld doc iframeElement
    /\ ordinaryFrom defaultArgs richSpanWorld ∅ ∅ doc iframeElement
         (createElementData hostButton 0).
Proof.
  apply (ordinary_records_pass_filters defaultArgs richSpanWorld ∅ ∅).
  - vm_compute. left. reflexivity.
  - reflexivity.
Defined.

Lemma hidden_file_input_proxies_witness :
  exists doc iframeElement,
    reached uploadWorld doc iframeElement
    /\ proxyFrom uploadWorld ∅ ∅ doc iframeElement
         (asHiddenFileInput ∅ uploadLabel (createElementData hiddenUpload 0)).
Proof.
  apply (hidden_file_input_proxies defaultArgs uploadWorld ∅ ∅).
  - vm_compute. left. reflexivity.
  - reflexivity.
Defined.

(** ** Scrollbar thumbs *)







(** ** Elements that stand apart *)

Lemma overlapLength_apart (lo1 hi1 lo2 hi2 : Q) :
  (hi1 <= lo2 \/ hi2 <= lo1)%Q ->
  Qleb (overlapLength lo1 hi1 lo2 hi2) 0 = true.
Proof.
  intros H. apply Qleb_le. unfold overlapLength.
  apply Q.max_lub; [lra|].
  pose proof (Q.le_min_l hi1 hi2). pose proof (Q.le_min_r hi1 hi2).
  pose proof (Q.le_max_l lo1 lo2). pose proof (Q.le_max_r lo1 lo2).
  destruct H; lra.
Qed.

Lemma checkProcessed_apart (rects : gmap nat DOMRect) (styles : gmap nat CSSStyle)
  (element : Element) (rect : DOMRect) (processedArea : ProcessedArea) :
  apart rect processedArea ->
  checkProcessed rects styles element rect processedArea = Continue.
Proof.
  intros Hapart. unfold checkProcessed. cbv zeta.
  assert (H : (Qleb (overlapLength (rect_left rect) (rect_right rect)
                       (pa_left processedArea) (pa_right processedArea)) 0
               || Qleb (overlapLength (rect_top rect) (rect_bottom rect)
                          (pa_top processedArea) (pa_bottom processedArea)) 0)%bool = true).
  { apply orb_true_iff. destruct Hapart as [H | [H | [H | H]]].
    - left. apply overlapLength_apart. left. exact H.
    - left. apply overlapLength_apart. right. exact H.
    - right. apply overlapLength_apart. left. exact H.
    - right. apply overlapLength_apart. right. exact H. }
  rewrite H. reflexivity.
Qed.

(** X22: a candidate of at least 5 by 5 pixels none of whose ancestors is
    interactive, and whose box overlaps the box of no ledger entry, is not a
    duplicate; the ledger is extended by its entry and otherwise unchanged. *)
Theorem separate_candidate_is_kept (rects : gmap nat DOMRect) (styles : gmap nat CSSStyle)
  (element : Element) (rect : DOMRect) (areas : list ProcessedArea) :
  isTiny rect = false ->
  (forall p, In p (ancestors element) -> isInteractiveElement styles p = false) ->
  (forall processedArea, In processedArea areas -> apart rect processedArea) ->
  exists priority area,
    isDuplicateInteractiveElement rects styles element rect areas
    = (false, (areas ++ [areaOfRect element rect priority area false])%list).
Proof.
  intros Htiny Hancestors Hapart.
  unfold isDuplicateInteractiveElement. rewrite Htiny. cbv zeta.
  destruct (isHighPriorityElement rects styles element rect).
  { do 2 eexists. reflexivity. }
  assert (Hwalk : walkParents rects styles element rect (ancestors element) = false).
  { induction (ancestors element) as [|p chain IH]; [reflexivity|].
    change (walkParents rects styles element rect (p :: chain))
      with (match checkParent rects styles element rect p with
            | ReturnTrue => true
            | Break => false
            | _ => walkParents rects styles element rect chain
            end).
    assert (Hp : checkParent rects styles element rect p = Continue).
    { unfold checkParent. cbv zeta. rewrite (Hancestors p) by (left; reflexivity).
      reflexivity. }
    rewrite Hp. apply IH. intros q Hq. apply Hancestors. right. exact Hq. }
  rewrite Hwalk.
  assert (Hscan : scanProcessed rects styles element rect areas = (false, areas)).
  { induction areas as [|pa areas IH]; [reflexivity|].
    cbn [scanProcessed].
    rewrite checkProcessed_apart by (apply Hapart; left; reflexivity).
    rewrite IH by (intros q Hq; apply Hapart; right; exact Hq). reflexivity. }
  rewrite Hscan. do 2 eexists. reflexivity.
Qed.

Lemma separate_candidate_is_kept_witness :
  exists priority area,
    isDuplicateInteractiveElement ∅ ∅ plainButton (cachedRect ∅ plainButton)
      [areaOfRect widerLink (cachedRect ∅ widerLink) None None false]
    = (false,
       ([areaOfRect widerLink (cachedRect ∅ widerLink) None None false]
        ++ [areaOfRect plainButton (cachedRect ∅ plainButton) priority area false])%list).
Proof.
  apply (separate_candidate_is_kept ∅ ∅ plainButton (cachedRect ∅ plainButton)).
  - reflexivity.
  - intros p [<- | [<- | []]]; reflexivity.
  - intros processedArea [<- | []]. right. left. vm_compute. discriminate.
Defined.

(** ** The phases of a pass *)

Section Phases.

Variable args : Args.
Variable world : World.
Variable rects : gmap nat DOMRect.
Variable styles : gmap nat CSSStyle.

Lemma DocEmitted_plain (f : option Element) (d : ElementData) :
  DocEmitted rects f d -> scrollData d = None /\ isMainScrollbar d = false.
Proof.
  intros [e i _ | h e i _ | fi vp i]; destruct f; split; reflexivity.
Qed.

Lemma elements_phase :
  Emits (fun d => scrollData d = None /\ isMainScrollbar d = false) initialState
    (List.fold_left (processIframe args world rects styles)
       (querySelectorAll isIframeTag (document world))
       (processElementsInDocument args world rects styles (document world) None
          initialState)).
Proof.
  eapply Emits_trans.
  - eapply Emits_mono; [|apply processElementsInDocument_emits].
    intros d Hd. apply (DocEmitted_plain None). exact Hd.
  - apply Emits_fold_left. intros st iframe _.
    eapply Emits_mono; [|apply processIframe_emits_frame].
    intros d [(iframeDoc & _ & Hd) | (_ & _ & index & ->)].
    + apply (DocEmitted_plain (Some iframe)). exact Hd.
    + split; reflexivity.
Qed.

Lemma processScrollable_justified (st : PassState) (element : Element) :
  Emits
    (fun d => exists index,
         d = scrollRegionData rects styles element index
         /\ scrollRegionShown args world rects styles element)
    st (processScrollable args world rects styles st element).
Proof.
  unfold processScrollable. cbv zeta.
  destruct (isInViewport args world rects element) eqn:Hview;
    cbn [negb orb]; [|apply Emits_refl].
  destruct (isElementVisible styles element) eqn:Hvis;
    cbn [negb]; [|apply Emits_refl].
  destruct (clientWidth element <? 10) eqn:Hcw; cbn [orb]; [apply Emits_refl|].
  destruct (clientHeight element <? 10) eqn:Hch; [apply Emits_refl|].
  destruct (elementHasVerticalScrollbar styles element
            || elementHasHorizontalScrollbar styles element)%bool eqn:Hscroll;
    [|apply Emits_refl].
  destruct (isTopElement world rects element) eqn:Htop; cbn [negb]; [|apply Emits_refl].
  destruct ((elementHasVerticalScrollbar styles element
             && (offsetWidth element - clientWidth element <? 1))
            || (elementHasHorizontalScrollbar styles element
                && (offsetHeight element - clientHeight element <? 1)))%bool eqn:Hgutter;
    [apply Emits_refl|].
  destruct (existsb _ _); [apply Emits_refl|].
  eapply Emits_trans; [apply Emits_setAreas|].
  apply Emits_push; [reflexivity|].
  eexists. split; [reflexivity|].
  apply orb_false_iff in Hgutter. destruct Hgutter as [Hv Hh].
  apply Z.ltb_ge in Hcw, Hch.
  unfold scrollRegionShown, canScroll.
  repeat split; try assumption.
  - intros Hhas. rewrite Hhas in Hv. cbn [andb] in Hv. apply Z.ltb_ge in Hv. exact Hv.
  - intros Hhas. rewrite Hhas in Hh. cbn [andb] in Hh. apply Z.ltb_ge in Hh. exact Hh.
Qed.

Lemma regions_phase (st : PassState) :
  Emits
    (fun d => exists element index,
         In element (allElements (document world))
         /\ d = scrollRegionData rects styles element index
         /\ scrollRegionShown args world rects styles element)
    st (findScrollableElements args world rects styles st).
Proof.
  unfold findScrollableElements. apply Emits_fold_left.
  intros st' element Hin.
  eapply Emits_mono; [|apply processScrollable_justified].
  intros d (index & -> & Hshown). eauto.
Qed.

(** X23: every scroll-region record of a pass belongs to a node of the main
    document that is in the viewport, visible, topmost and at least 10 by 10
    pixels inside, that can scroll on some axis, and whose scrollbar takes at
    least one pixel on every axis on which it scrolls. *)
Theorem scroll_regions_are_justified (d : ElementData) :
  In d (findViewportInteractiveElements args world rects styles) ->
  scrollData d <> None ->
  isMainScrollbar d = false ->
  exists element index,
    In element (allElements (document world))
    /\ d = scrollRegionData rects styles element index
    /\ scrollRegionShown args world rects styles element.
Proof.
  assert (Hpass : Emits
            (fun d => scrollData d <> None -> isMainScrollbar d = false ->
                      exists element index,
                        In element (allElements (document world))
                        /\ d = scrollRegionData rects styles element index
                        /\ scrollRegionShown args world rects styles element)
            initialState (runPass args world rects styles)).
  { unfold runPass. cbv zeta.
    eapply Emits_trans.
    2:{ eapply Emits_mono; [|apply findMainBrowserScrollbars_emits_bar].
        intros d' (vertical & index & ->) _ Hmain.
        change (true = false) in Hmain. discriminate Hmain. }
    eapply Emits_trans.
    2:{ eapply Emits_mono; [|apply regions_phase]. intros d' Hd' _ _. exact Hd'. }
    eapply Emits_mono; [|apply elements_phase].
    intros d' [Hnone _] Hsome. congruence. }
  unfold findViewportInteractiveElements.
  destruct Hpass as (l & Hr & _ & _ & Hall).
  rewrite Hr. cbn [result initialState app]. intros Hin.
  rewrite List.Forall_forall in Hall. apply Hall. exact Hin.
Qed.

(** X24: the main scrollbar records come last in the result of a pass: the
    vertical one, then the horizontal one, each present exactly when the
    document exceeds the window on that axis and the window is not narrower
    than the root's client box; no record before them is a main scrollbar. *)
Theorem main_scrollbars_come_last :
  exists elements,
    Forall (fun d => isMainScrollbar d = false) elements
    /\ findViewportInteractiveElements args world rects styles
       = (elements
          ++ (if mainScrollbarShown world true
              then [mainScrollbarData world true (length elements)] else [])
          ++ (if mainScrollbarShown world false
              then [mainScrollbarData world false
                      (length elements
                       + (if mainScrollbarShown world true then 1 else 0))]
              else []))%list.
Proof.
  assert (Hbefore : Emits (fun d => isMainScrollbar d = false) initialState
            (findScrollableElements args world rects styles
               (List.fold_left (processIframe args world rects styles)
                  (querySelectorAll isIframeTag (document world))
                  (processElementsInDocument args world rects styles (document world)
                     None initialState)))).
  { eapply Emits_trans.
    - eapply Emits_mono; [|apply elements_phase]. intros d [_ H]. exact H.
    - eapply Emits_mono; [|apply regions_phase].
      intros d (element & index & _ & -> & _). reflexivity. }
  destruct Hbefore as (l & Hr & Hidx & _ & Hall).
  cbn [result st_highlightIndex initialState app Nat.add] in Hr, Hidx.
  exists l. split; [exact Hall|].
  unfold findViewportInteractiveElements, runPass. cbv zeta.
  set (st3 := findScrollableElements args world rects styles _) in *.
  change (result (findMainBrowserScrollbars args world st3))
    with (result
            (if mainScrollbarShown world false
             then pushResult args (mainScrollbarData world false)
                    (if mainScrollbarShown world true
                     then pushResult args (mainScrollbarData world true) st3 else st3)
             else if mainScrollbarShown world true
                  then pushResult args (mainScrollbarData world true) st3 else st3)).
  destruct (mainScrollbarShown world true), (mainScrollbarShown world false);
    unfold pushResult; cbn [result st_highlightIndex]; rewrite ?Hr, ?Hidx.
  - rewrite <- app_assoc, Nat.add_1_r. reflexivity.
  - rewrite app_nil_r. reflexivity.
  - rewrite Nat.add_0_r. reflexivity.
  - rewrite app_nil_r. reflexivity.
Qed.

End Phases.

Lemma scroll_regions_are_justified_witness :
  exists element index,
    In element (allElements (document (scrollPaneWorld 15)))
    /\ scrollRegionData ∅ ∅ (scrollPane 15) 0 = scrollRegionData ∅ ∅ element index
    /\ scrollRegionShown defaultArgs (scrollPaneWorld 15) ∅ ∅ element.
Proof.
  apply (scroll_regions_are_justified defaultArgs (scrollPaneWorld 15) ∅ ∅).
  - vm_compute. left. reflexivity.
  - discriminate.
  - reflexivity.
Defined.
